(** * OpenLink: challenge-response verification, sessions and user linking

    A shallow embedding of the server-side core of OpenLink
    (packages/core utils, packages/server auth, session, user-linking and
    middleware) together with the properties checked against it.

    Conventions of the embedding.
    - A JavaScript [number] that holds a time, a TTL or a counter is a [Z];
      this is exact on the safe-integer range, which covers [Date.now()].
    - [Date.now()] is the argument [now] of every operation that reads the
      clock; all reads of one synchronous call see the same value.
    - A JavaScript string is a [string]; the regular expression and the
      [split] used by the code only look at ASCII characters.
    - An optional field is an [option]; [undefined] is [None].
    - [await]-sequenced store calls are binds of a state-and-exception
      monad; [throw] is [Throw]. *)

From Stdlib Require Import ZArith String Ascii List Lia.
From Stdlib Require Import DecimalString DecimalPos DecimalN DecimalZ.
From Stdlib Require HexadecimalString.
From stdpp Require Import base option gmap strings.

Local Open Scope Z_scope.

(** ** JavaScript built-ins used by the code *)

Module Js.

(** [new Error(message)] *)
Inductive Error : Type := JsError (message : string).

(** Values stored in a [Record<string, any>]. *)
Inductive Value : Type :=
| VNull
| VBool (b : bool)
| VNum (n : Z)
| VStr (s : string).

Abbreviation Metadata := (gmap string Value).

(** Truthiness of a string: the empty string is falsy. *)
Definition truthy_str (s : string) : bool :=
  match s with EmptyString => false | String _ _ => true end.

(** Truthiness of an optional string: [undefined] and [""] are falsy. *)
Definition truthy (o : option string) : bool :=
  match o with Some s => truthy_str s | None => false end.

(** Truthiness of a number: [0] is falsy. *)
Definition truthy_num (n : Z) : bool := negb (n =? 0).

(** [a || b] on optional strings. *)
Definition or_else (a : option string) (b : string) : string :=
  match a with
  | Some s => if truthy_str s then s else b
  | None => b
  end.

(** [{...a, ...b}] on optional objects: keys of [b] win. *)
Definition spread (a b : option Metadata) : Metadata :=
  default ∅ b ∪ default ∅ a.

(** [String(n)] and [`${n}`] for an integral number. *)
Definition String_of_number (n : Z) : string :=
  NilEmpty.string_of_int (Z.to_int n).

Definition LF : ascii := ascii_of_nat 10.
Definition nl : string := String LF EmptyString.

(** [\d] *)
Definition is_digit (c : ascii) : bool :=
  let n := N_of_ascii c in ((48 <=? n) && (n <=? 57))%N.

Definition digit_val (c : ascii) : Z := Z.of_N (N_of_ascii c - 48).

(** The longest prefix matched by [\d*]. *)
Fixpoint take_digits (s : string) : string :=
  match s with
  | String c r => if is_digit c then String c (take_digits r) else EmptyString
  | EmptyString => EmptyString
  end.

(** The decimal value of the leading digits of [s], continuing [acc]. *)
Fixpoint parse_digits (acc : Z) (s : string) : Z :=
  match s with
  | String c r =>
      if is_digit c then parse_digits (10 * acc + digit_val c) r else acc
  | EmptyString => acc
  end.

(** [parseInt(s, 10)] on a string that starts with the number itself
    (no leading blanks or sign, which [\d+] cannot capture); [None] is
    [NaN]. *)
Definition parseInt10 (s : string) : option Z :=
  match s with
  | String c _ => if is_digit c then Some (parse_digits 0 s) else None
  | EmptyString => None
  end.

(** [s.startsWith(p)], returning what follows the prefix. *)
Fixpoint strip_prefix (p s : string) : option string :=
  match p, s with
  | EmptyString, _ => Some s
  | String a p', String b s' =>
      if Ascii.eqb a b then strip_prefix p' s' else None
  | String _ _, EmptyString => None
  end.

Definition startsWith (s p : string) : bool :=
  match strip_prefix p s with Some _ => true | None => false end.

(** [s.slice(n)] for [0 <= n]. *)
Fixpoint slice (n : nat) (s : string) : string :=
  match n, s with
  | O, _ => s
  | S n', String _ r => slice n' r
  | S _, EmptyString => EmptyString
  end.

(** [s.split(sep)] for a one-character separator; [cur] is the field
    being read. *)
Fixpoint split_go (sep : ascii) (cur : string) (s : string) : list string :=
  match s with
  | EmptyString => [cur]
  | String c r =>
      if Ascii.eqb c sep then cur :: split_go sep EmptyString r
      else split_go sep (cur +:+ String c EmptyString) r
  end.

Definition split (sep : ascii) (s : string) : list string :=
  split_go sep EmptyString s.

End Js.

Import Js.

(** ** External primitives

    The signature scheme, the key and base-58 codecs and two string
    built-ins are collaborators of the code; they are taken as an interface.
    [None] stands for a thrown exception. *)

Class Primitives : Type := {
  (** [new PublicKey(s).toBytes()] *)
  PublicKey_toBytes : string → option (list Byte.byte);
  (** [bs58.decode(s)] *)
  bs58_decode : string → option (list Byte.byte);
  (** [nacl.sign.detached.verify(message, signature, publicKey)] *)
  nacl_verify :
    list Byte.byte → list Byte.byte → list Byte.byte → option bool;
  (** [decodeURIComponent(s)] *)
  decodeURIComponent : string → option string;
  (** [s.toLowerCase()] *)
  toLowerCase : string → string
}.

(** ** packages/core: utils *)

Module Core.

Definition intro : string :=
  " wants you to sign in with your Solana account." +:+ nl +:+ nl
  +:+ "Nonce: ".

Definition stamp : string := "Timestamp: ".

(** [Math.random().toString(36).substring(7)], from the string [rnd] that
    [Math.random().toString(36)] produced. *)
Definition randomNonce (rnd : string) : string := slice 7 rnd.

Definition generateSignatureMessage
    (now : Z) (rnd : string) (appName : string) (nonce : option string)
  : string :=
  let timestamp := now in
  let nonceStr := or_else nonce (randomNonce rnd) in
  appName +:+ intro +:+ nonceStr +:+ nl +:+ stamp
  +:+ String_of_number timestamp.

(** A match of [/Timestamp: (\d+)/] that starts at the head of [s];
    the result is capture group 1. *)
Definition capture_here (lit s : string) : option string :=
  match strip_prefix lit s with
  | Some r =>
      let ds := take_digits r in
      if truthy_str ds then Some ds else None
  | None => None
  end.

(** [message.match(/Timestamp: (\d+)/)]: the leftmost match, group 1. *)
Fixpoint match_Timestamp (s : string) : option string :=
  match capture_here stamp s with
  | Some ds => Some ds
  | None =>
      match s with
      | String _ r => match_Timestamp r
      | EmptyString => None
      end
  end.

(** The timestamp extractor shared by [isMessageTimestampValid] and
    [verifyWalletSignature]: match, then [parseInt(m[1], 10)]. *)
Definition extractTimestamp (message : string) : option Z :=
  match match_Timestamp message with
  | Some ds => parseInt10 ds
  | None => None
  end.

Definition isMessageTimestampValid
    (now : Z) (message : string) (maxAgeMs : Z) : bool :=
  match match_Timestamp message with
  | None => false
  | Some ds =>
      match parseInt10 ds with
      | Some timestamp => now - timestamp <? maxAgeMs
      | None => false
      end
  end.

Section WithPrimitives.
Context `{Primitives}.

(** [try { new PublicKey(publicKey); return true } catch { return false }] *)
Definition isValidPublicKey (publicKey : string) : bool :=
  match PublicKey_toBytes publicKey with Some _ => true | None => false end.

(** Any exception of the codecs or of the primitive is caught and
    gives [false]. *)
Definition verifySignature (message signature publicKey : string) : bool :=
  let messageBytes := list_byte_of_string message in
  match bs58_decode signature with
  | None => false
  | Some signatureBytes =>
      match PublicKey_toBytes publicKey with
      | None => false
      | Some publicKeyBytes =>
          match nacl_verify messageBytes signatureBytes publicKeyBytes with
          | Some b => b
          | None => false
          end
      end
  end.
End WithPrimitives.

End Core.

(** ** packages/server: auth *)

Module Auth.
Import Core.

Record VerifySignatureOptions : Type := {
  publicKey : string;
  signature : string;
  message : string;
  checkTimestamp : option bool;
  maxAgeMs : option Z
}.

Record VerifySignatureResult : Type := {
  valid : bool;
  resultPublicKey : option string;
  error : option string;
  timestamp : option Z
}.

Definition invalid (msg : string) : VerifySignatureResult :=
  {| valid := false; resultPublicKey := None; error := Some msg;
     timestamp := None |}.

Definition E_public_key : string := "Invalid public key format".
Definition E_timestamp : string := "Message timestamp expired or invalid".
Definition E_signature : string := "Invalid signature".

Section WithPrimitives.
Context `{Primitives}.

Definition verifyWalletSignature
    (now : Z) (options : VerifySignatureOptions) : VerifySignatureResult :=
  let checkTs := default true (checkTimestamp options) in
  let maxAge := default 300000 (maxAgeMs options) in
  if negb (isValidPublicKey (publicKey options)) then invalid E_public_key
  else if checkTs
          && negb (isMessageTimestampValid now (message options) maxAge)
  then invalid E_timestamp
  else
    let ts := extractTimestamp (message options) in
    if verifySignature (message options) (signature options)
         (publicKey options)
    then {| valid := true; resultPublicKey := Some (publicKey options);
            error := None; timestamp := ts |}
    else invalid E_signature.
End WithPrimitives.

End Auth.

(** ** Asynchronous store calls

    A store call runs against the store's state and either returns or
    throws; [await] sequences calls and lets a [Throw] escape. *)

Inductive Outcome (A : Type) : Type :=
| Return (a : A)
| Throw (e : Error).
Arguments Return {A} a.
Arguments Throw {A} e.

Definition Async (St A : Type) : Type := St → Outcome A * St.

Definition ret {St A : Type} (a : A) : Async St A := λ s, (Return a, s).

Definition throw {St A : Type} (e : Error) : Async St A := λ s, (Throw e, s).

Definition bind {St A B : Type} (m : Async St A) (k : A → Async St B)
  : Async St B :=
  λ s, match m s with
       | (Return a, s') => k a s'
       | (Throw e, s') => (Throw e, s')
       end.

Notation "'await' x ← m ; k" := (bind m (λ x, k))
  (at level 20, x name, m at level 100, k at level 200, only parsing).

(** ** packages/server: session *)

Module Session.

Record WalletSession : Type := {
  publicKey : string;
  userId : option string;
  createdAt : Z;
  expiresAt : option Z;
  metadata : option Metadata
}.

(** The pluggable store contract. [store_get] and [store_cleanup] take
    the clock because the in-memory store reads it there. *)
Class SessionStore (St : Type) : Type := {
  store_set : string → WalletSession → Async St unit;
  store_get : Z → string → Async St (option WalletSession);
  store_delete : string → Async St unit;
  store_cleanup : Z → Async St unit
}.

(** [session.expiresAt && session.expiresAt < now] *)
Definition expired (now : Z) (session : WalletSession) : bool :=
  match expiresAt session with
  | Some e => truthy_num e && (e <? now)
  | None => false
  end.

Module MemorySessionStore.

Abbreviation State := (gmap string WalletSession).

Definition set (sessionId : string) (data : WalletSession)
  : Async State unit :=
  λ sessions, (Return tt, <[sessionId := data]> sessions).

Definition get (now : Z) (sessionId : string)
  : Async State (option WalletSession) :=
  λ sessions,
    match sessions !! sessionId with
    | None => (Return None, sessions)
    | Some session =>
        if expired now session
        then (Return None, base.delete sessionId sessions)
        else (Return (Some session), sessions)
    end.

Definition cleanup (now : Z) : Async State unit :=
  λ sessions,
    (Return tt, filter (λ kv, expired now kv.2 = false) sessions).

Definition delete (sessionId : string) : Async State unit :=
  λ sessions, (Return tt, base.delete sessionId sessions).

#[global] Instance store : SessionStore State := {
  store_set := set;
  store_get := get;
  store_delete := delete;
  store_cleanup := cleanup
}.

End MemorySessionStore.

Record CreateOptions : Type := {
  opt_userId : option string;
  ttl : option Z;
  opt_metadata : option Metadata
}.

(** [ttl || defaultTTL] *)
Definition ttl_or (ttl : option Z) (defaultTTL : Z) : Z :=
  match ttl with
  | Some t => if truthy_num t then t else defaultTTL
  | None => defaultTTL
  end.

Section SessionManager.
Context {St : Type} `{SessionStore St}.

(** [private defaultTTL: number = 86400000] *)
Variable defaultTTL : Z.

(** [sessionId] is the identifier drawn by [generateSessionId()]. *)
Definition createSession
    (now : Z) (sessionId : string) (publicKey : string)
    (options : option CreateOptions) : Async St string :=
  let ttl := ttl_or (options ≫= ttl) defaultTTL in
  let session :=
    {| publicKey := publicKey;
       userId := options ≫= opt_userId;
       createdAt := now;
       expiresAt := Some (now + ttl);
       metadata := options ≫= opt_metadata |} in
  await _ ← store_set sessionId session;
  ret sessionId.

Definition getSession (now : Z) (sessionId : string)
  : Async St (option WalletSession) :=
  store_get now sessionId.

Definition deleteSession (sessionId : string) : Async St unit :=
  store_delete sessionId.

Definition refreshSession (now : Z) (sessionId : string) (ttl : option Z)
  : Async St bool :=
  await session ← store_get now sessionId;
  match session with
  | None => ret false
  | Some session =>
      let session' :=
        {| publicKey := publicKey session;
           userId := userId session;
           createdAt := createdAt session;
           expiresAt := Some (now + ttl_or ttl defaultTTL);
           metadata := metadata session |} in
      await _ ← store_set sessionId session';
      ret true
  end.
End SessionManager.

Definition DEFAULT_TTL : Z := 86400000.

End Session.

(** ** packages/server: user-linking *)

Module Users.

Record UserLinkOptions : Type := {
  publicKey : string;
  existingUserId : option string;
  opt_email : option string;
  opt_metadata : option Metadata
}.

Record UserRecord : Type := {
  id : string;
  walletPublicKey : option string;
  email : option string;
  walletConnectedAt : option Z;
  metadata : option Metadata
}.

(** [Partial<UserRecord>]: a key is absent ([None]), present and
    [undefined] ([Some None]) or present with a value. The code never
    passes an [id] that is present and [undefined]. *)
Record PartialUser : Type := {
  p_id : option string;
  p_walletPublicKey : option (option string);
  p_email : option (option string);
  p_walletConnectedAt : option (option Z);
  p_metadata : option (option Metadata)
}.

(** Reading [data.key]: an absent key reads as [undefined]. *)
Definition read {A : Type} (f : option (option A)) : option A :=
  match f with Some v => v | None => None end.

(** One key of [{...user, ...data}]. *)
Definition over {A : Type} (old : option A) (f : option (option A))
  : option A :=
  match f with Some v => v | None => old end.

Class UserStore (St : Type) : Type := {
  findByPublicKey : string → Async St (option UserRecord);
  findByUserId : string → Async St (option UserRecord);
  findByEmail : string → Async St (option UserRecord);
  create : PartialUser → Async St UserRecord;
  update : string → PartialUser → Async St UserRecord
}.

Definition E_user_not_found : Error := JsError "User not found".
Definition E_wallet_linked : Error :=
  JsError "User already has a linked wallet".
Definition E_email_linked : Error :=
  JsError "Email already has a linked wallet".

Section UserLinkingManager.
Context {St : Type} `{UserStore St}.

(** The argument of both [update] calls of [linkOrCreateUser]. *)
Definition link_data
    (now : Z) (publicKey : string) (user : UserRecord)
    (metadata' : option Metadata) : PartialUser :=
  {| p_id := None;
     p_walletPublicKey := Some (Some publicKey);
     p_email := None;
     p_walletConnectedAt := Some (Some now);
     p_metadata := Some (Some (spread (metadata user) metadata')) |}.

(** The argument of the [create] call of [linkOrCreateUser]. *)
Definition create_data (now : Z) (options : UserLinkOptions)
  : PartialUser :=
  {| p_id := None;
     p_walletPublicKey := Some (Some (publicKey options));
     p_email := Some (opt_email options);
     p_walletConnectedAt := Some (Some now);
     p_metadata := Some (opt_metadata options) |}.

Definition linkOrCreateUser (now : Z) (options : UserLinkOptions)
  : Async St UserRecord :=
  await existingWallet ← findByPublicKey (publicKey options);
  match existingWallet with
  | Some existing => ret existing
  | None =>
      if truthy (existingUserId options) then
        let existingUserId := default EmptyString (existingUserId options) in
        await user ← findByUserId existingUserId;
        match user with
        | None => throw E_user_not_found
        | Some user =>
            if truthy (walletPublicKey user) then throw E_wallet_linked
            else update existingUserId
                   (link_data now (publicKey options) user
                      (opt_metadata options))
        end
      else if truthy (opt_email options) then
        await user ← findByEmail (default EmptyString (opt_email options));
        match user with
        | Some user =>
            if truthy (walletPublicKey user) then throw E_email_linked
            else update (id user)
                   (link_data now (publicKey options) user
                      (opt_metadata options))
        | None => create (create_data now options)
        end
      else create (create_data now options)
  end.

(** [{ walletPublicKey: undefined, walletConnectedAt: undefined }] *)
Definition unlink_data : PartialUser :=
  {| p_id := None;
     p_walletPublicKey := Some None;
     p_email := None;
     p_walletConnectedAt := Some None;
     p_metadata := None |}.

Definition unlinkWallet (userId : string) : Async St UserRecord :=
  await user ← findByUserId userId;
  match user with
  | None => throw E_user_not_found
  | Some _ => update userId unlink_data
  end.

Definition getUserByPublicKey (publicKey : string)
  : Async St (option UserRecord) :=
  findByPublicKey publicKey.

Definition isWalletLinked (publicKey : string) : Async St bool :=
  await user ← findByPublicKey publicKey;
  ret (match user with Some _ => true | None => false end).
End UserLinkingManager.

Module MemoryUserStore.

Record State : Type := {
  users : gmap string UserRecord;
  emailIndex : gmap string string;
  walletIndex : gmap string string;
  nextId : Z
}.

Definition empty : State :=
  {| users := ∅; emailIndex := ∅; walletIndex := ∅; nextId := 1 |}.

(** [const userId = index.get(key); if (!userId) return null;
    return this.users.get(userId) || null] *)
Definition via_index (index : gmap string string) (key : string)
    (s : State) : option UserRecord :=
  match index !! key with
  | Some userId => if truthy_str userId then users s !! userId else None
  | None => None
  end.

Definition findByPublicKey (publicKey : string)
  : Async State (option UserRecord) :=
  λ s, (Return (via_index (walletIndex s) publicKey s), s).

Definition findByUserId (userId : string)
  : Async State (option UserRecord) :=
  λ s, (Return (users s !! userId), s).

Definition findByEmail (email : string)
  : Async State (option UserRecord) :=
  λ s, (Return (via_index (emailIndex s) email s), s).

Definition create (data : PartialUser) : Async State UserRecord :=
  λ s,
    let '(id, next) :=
      if truthy (p_id data) then (default EmptyString (p_id data), nextId s)
      else (String_of_number (nextId s), nextId s + 1) in
    let user :=
      {| id := id;
         walletPublicKey := read (p_walletPublicKey data);
         email := read (p_email data);
         walletConnectedAt := read (p_walletConnectedAt data);
         metadata := Some (default ∅ (read (p_metadata data))) |} in
    let emails :=
      match email user with
      | Some e => if truthy_str e then <[e := id]> (emailIndex s)
                  else emailIndex s
      | None => emailIndex s
      end in
    let wallets :=
      match walletPublicKey user with
      | Some k => if truthy_str k then <[k := id]> (walletIndex s)
                  else walletIndex s
      | None => walletIndex s
      end in
    (Return user,
     {| users := <[id := user]> (users s);
        emailIndex := emails;
        walletIndex := wallets;
        nextId := next |}).

(** [if (old) index.delete(old)] *)
Definition drop_old (old : option string) (index : gmap string string)
  : gmap string string :=
  match old with
  | Some o => if truthy_str o then base.delete o index else index
  | None => index
  end.

Definition update (userId : string) (data : PartialUser)
  : Async State UserRecord :=
  λ s,
    match users s !! userId with
    | None => (Throw E_user_not_found, s)
    | Some user =>
        let emails :=
          match read (p_email data) with
          | Some e =>
              if truthy_str e
                 && negb (bool_decide (Some e = email user))
              then <[e := userId]> (drop_old (email user) (emailIndex s))
              else emailIndex s
          | None => emailIndex s
          end in
        let wallets :=
          match read (p_walletPublicKey data) with
          | Some k =>
              let dropped :=
                drop_old (walletPublicKey user) (walletIndex s) in
              if truthy_str k then <[k := userId]> dropped else dropped
          | None => walletIndex s
          end in
        let updatedUser :=
          {| id := default (id user) (p_id data);
             walletPublicKey :=
               over (walletPublicKey user) (p_walletPublicKey data);
             email := over (email user) (p_email data);
             walletConnectedAt :=
               over (walletConnectedAt user) (p_walletConnectedAt data);
             metadata := over (metadata user) (p_metadata data) |} in
        (Return updatedUser,
         {| users := <[userId := updatedUser]> (users s);
            emailIndex := emails;
            walletIndex := wallets;
            nextId := nextId s |})
    end.

#[global] Instance store : UserStore State := {
  Users.findByPublicKey := findByPublicKey;
  Users.findByUserId := findByUserId;
  Users.findByEmail := findByEmail;
  Users.create := create;
  Users.update := update
}.

End MemoryUserStore.

End Users.

(** ** A store with a uniqueness constraint and a concurrent writer

    The in-memory store behind a storage-level uniqueness constraint on
    [walletPublicKey], shared with a second request. [rival] is the key
    that the other request is about to insert: its write lands while this
    request is suspended on its first read. [reads] counts the calls of
    [findByPublicKey]. *)

Module RacingStore.
Import Users.

Record State : Type := {
  mem : MemoryUserStore.State;
  rival : option string;
  reads : nat
}.

Definition E_unique : Error :=
  JsError "duplicate key value violates unique constraint".

Definition on_mem {A : Type} (m : Async MemoryUserStore.State A)
  : Async State A :=
  λ s, let '(r, mem') := m (mem s) in
       (r, {| mem := mem'; rival := rival s; reads := reads s |}).

Definition rival_data (k : string) : PartialUser :=
  {| p_id := None;
     p_walletPublicKey := Some (Some k);
     p_email := None;
     p_walletConnectedAt := None;
     p_metadata := None |}.

Definition findByPublicKey (publicKey : string)
  : Async State (option UserRecord) :=
  λ s,
    let '(r, mem1) := MemoryUserStore.findByPublicKey publicKey (mem s) in
    let mem2 :=
      match rival s with
      | Some k => snd (MemoryUserStore.create (rival_data k) mem1)
      | None => mem1
      end in
    (r, {| mem := mem2; rival := None; reads := S (reads s) |}).

(** The constraint: no stored record holds the key already. *)
Definition taken (k : option string) (s : State) : bool :=
  match k with
  | Some k =>
      bool_decide
        (map_Exists (λ _ u, walletPublicKey u = Some k)
           (MemoryUserStore.users (mem s)))
  | None => false
  end.

Definition create (data : PartialUser) : Async State UserRecord :=
  λ s,
    if taken (read (p_walletPublicKey data)) s then (Throw E_unique, s)
    else on_mem (MemoryUserStore.create data) s.

Definition update (userId : string) (data : PartialUser)
  : Async State UserRecord :=
  λ s,
    if taken (read (p_walletPublicKey data)) s then (Throw E_unique, s)
    else on_mem (MemoryUserStore.update userId data) s.

#[global] Instance store : UserStore State := {
  Users.findByPublicKey := findByPublicKey;
  Users.findByUserId := λ userId, on_mem (MemoryUserStore.findByUserId userId);
  Users.findByEmail := λ email, on_mem (MemoryUserStore.findByEmail email);
  Users.create := create;
  Users.update := update
}.

Definition start (k : string) : State :=
  {| mem := MemoryUserStore.empty; rival := Some k; reads := 0 |}.

End RacingStore.

(** ** Sequences of manager operations on the in-memory user store *)

Module Run.
Import Users.

Inductive Op : Type :=
| LinkOrCreateUser (now : Z) (options : UserLinkOptions)
| UnlinkWallet (userId : string)
| GetUserByPublicKey (publicKey : string)
| IsWalletLinked (publicKey : string).

(** One call of the manager; an exception leaves the store as the
    throwing call left it. *)
Definition step (s : MemoryUserStore.State) (op : Op)
  : MemoryUserStore.State :=
  match op with
  | LinkOrCreateUser now options => snd (linkOrCreateUser now options s)
  | UnlinkWallet userId => snd (unlinkWallet userId s)
  | GetUserByPublicKey publicKey => snd (getUserByPublicKey publicKey s)
  | IsWalletLinked publicKey => snd (isWalletLinked publicKey s)
  end.

Definition run (ops : list Op) : MemoryUserStore.State :=
  fold_left step ops MemoryUserStore.empty.

(** At most one record holds the key [k]. *)
Definition held_once (k : string) (s : MemoryUserStore.State) : Prop :=
  ∀ i j u v,
    MemoryUserStore.users s !! i = Some u →
    MemoryUserStore.users s !! j = Some v →
    walletPublicKey u = Some k →
    walletPublicKey v = Some k →
    i = j.

(** [{ publicKey }] *)
Definition only_key (k : string) : UserLinkOptions :=
  {| publicKey := k; existingUserId := None; opt_email := None;
     opt_metadata := None |}.

End Run.

(** ** packages/server: middleware *)

Module Middleware.
Import Auth.

Inductive HeaderValue : Type :=
| HString (s : string)
| HArray (l : list string).

Record Request : Type := {
  headers : gmap string HeaderValue;
  walletPublicKey : option string
}.

Record MiddlewareOptions : Type := {
  headerName : option string;
  opt_checkTimestamp : option bool;
  opt_maxAgeMs : option Z;
  (** whether the caller supplied the handler *)
  onUnauthorized : bool;
  onError : bool
}.

(** What a handler does to its surroundings, in order. *)
Inductive Effect : Type :=
| Next
| Status (code : Z)
| Json (error : string)
| OnUnauthorized
| OnError (e : Error)
| ConsoleError (msg : string).

Definition attach (req : Request) (k : option string) : Request :=
  {| headers := headers req; walletPublicKey := k |}.

(** [const [publicKey, signature, encodedMessage] = s.split(':')] *)
Definition fields (s : string)
  : option string * option string * option string :=
  let l := split ":" s in (l !! 0%nat, l !! 1%nat, l !! 2%nat).

(** [!authHeader || typeof authHeader !== 'string'] *)
Definition header_string (h : option HeaderValue) : option string :=
  match h with
  | Some (HString s) => if truthy_str s then Some s else None
  | _ => None
  end.

Definition E_uri : Error := JsError "URI malformed".

Section WithPrimitives.
Context `{Primitives}.

Definition verify_options
    (options : MiddlewareOptions) (publicKey signature message : string)
  : VerifySignatureOptions :=
  {| publicKey := publicKey;
     signature := signature;
     message := message;
     checkTimestamp := Some (default true (opt_checkTimestamp options));
     maxAgeMs := Some (default 300000 (opt_maxAgeMs options)) |}.

Definition unauthorized (options : MiddlewareOptions) (msg : string)
  : list Effect :=
  if onUnauthorized options then [OnUnauthorized]
  else [Status 401; Json ("Unauthorized: " +:+ msg)].

Definition createWalletAuthMiddleware
    (options : MiddlewareOptions) (now : Z) (req : Request)
  : Request * list Effect :=
  let name := default "Authorization" (headerName options) in
  match header_string (headers req !! toLowerCase name) with
  | None => (req, unauthorized options "No wallet signature provided")
  | Some authHeader =>
      if negb (startsWith authHeader "Wallet ")
      then (req, unauthorized options "Invalid authorization format")
      else
        let '(publicKey, signature, encodedMessage) :=
          fields (slice 7 authHeader) in
        if negb (truthy publicKey) || negb (truthy signature)
           || negb (truthy encodedMessage)
        then (req, unauthorized options "Invalid authorization format")
        else
          match decodeURIComponent (default "" encodedMessage) with
          | None =>
              if onError options then (req, [OnError E_uri])
              else (req, [ConsoleError "Wallet auth middleware error:";
                          Status 500; Json "Internal server error"])
          | Some message =>
              let result :=
                verifyWalletSignature now
                  (verify_options options (default "" publicKey)
                     (default "" signature) message) in
              if negb (valid result)
              then (req, unauthorized options (default "" (error result)))
              else (attach req (resultPublicKey result), [Next])
          end
  end.

Definition createOptionalWalletAuthMiddleware
    (options : MiddlewareOptions) (now : Z) (req : Request)
  : Request * list Effect :=
  let name := default "Authorization" (headerName options) in
  match header_string (headers req !! toLowerCase name) with
  | None => (req, [Next])
  | Some authHeader =>
      if negb (startsWith authHeader "Wallet ") then (req, [Next])
      else
        let '(publicKey, signature, encodedMessage) :=
          fields (slice 7 authHeader) in
        if negb (truthy publicKey) || negb (truthy signature)
           || negb (truthy encodedMessage)
        then (req, [Next])
        else
          match decodeURIComponent (default "" encodedMessage) with
          | None =>
              (req, [ConsoleError "Optional wallet auth middleware error:";
                     Next])
          | Some message =>
              let result :=
                verifyWalletSignature now
                  (verify_options options (default "" publicKey)
                     (default "" signature) message) in
              if valid result
              then (attach req (resultPublicKey result), [Next])
              else (req, [Next])
          end
  end.

(** The handler wrote a response or called the unauthorized handler. *)
Definition responds (e : Effect) : bool :=
  match e with
  | Status _ | Json _ | OnUnauthorized | OnError _ => true
  | Next | ConsoleError _ => false
  end.
End WithPrimitives.

End Middleware.

(** ** Test primitives

    Signers that accept, or reject, every well-formed triple, with the
    ASCII part of [decodeURIComponent] and of [toLowerCase]; they run the
    code on concrete inputs. *)

Module TestPrimitives.

Definition hex (c : ascii) : option nat :=
  let n := nat_of_ascii c in
  if (48 <=? n)%nat && (n <=? 57)%nat then Some (n - 48)%nat
  else if (65 <=? n)%nat && (n <=? 70)%nat then Some (n - 55)%nat
  else if (97 <=? n)%nat && (n <=? 102)%nat then Some (n - 87)%nat
  else None.

(** [%XX] becomes the character of code [XX]; a [%] without two
    hexadecimal digits throws. *)
Fixpoint percent_decode (s : string) : option string :=
  match s with
  | EmptyString => Some EmptyString
  | String c r =>
      if Ascii.eqb c "%" then
        match r with
        | String a (String b r') =>
            match hex a, hex b, percent_decode r' with
            | Some x, Some y, Some t =>
                Some (String (ascii_of_nat (16 * x + y)) t)
            | _, _, _ => None
            end
        | _ => None
        end
      else String c <$> percent_decode r
  end.

Definition lower (c : ascii) : ascii :=
  let n := nat_of_ascii c in
  if (65 <=? n)%nat && (n <=? 90)%nat then ascii_of_nat (n + 32) else c.

Fixpoint lower_case (s : string) : string :=
  match s with
  | EmptyString => EmptyString
  | String c r => String (lower c) (lower_case r)
  end.

Definition signer (accepts : bool) : Primitives := {|
  PublicKey_toBytes := λ s, if truthy_str s then Some [] else None;
  bs58_decode := λ _, Some [];
  nacl_verify := λ _ _ _, Some accepts;
  decodeURIComponent := percent_decode;
  toLowerCase := lower_case
|}.

Definition accept_all : Primitives := signer true.
Definition reject_all : Primitives := signer false.

End TestPrimitives.

(** ** Vocabulary of the properties *)

Module Props.
Import Core Session Users.

(** The suffixes of a literal, the literal itself first. *)
Fixpoint tails (p : string) : list string :=
  p :: match p with String _ p' => tails p' | EmptyString => [] end.

(** No match of the pattern that started earlier can be completed by the
    head of [b]. *)
Definition no_tail (b : string) : Prop :=
  Forall (λ p, capture_here p b = None) (tails stamp).

(** [s] has no occurrence of the character [c]. *)
Fixpoint lacks (c : ascii) (s : string) : bool :=
  match s with
  | String a r => negb (Ascii.eqb a c) && lacks c r
  | EmptyString => true
  end.

(** The results of reading [sessionId] once at each of [times]. *)
Fixpoint read_all (times : list Z) (sessionId : string)
    (sessions : gmap string WalletSession)
  : list (Outcome (option WalletSession)) :=
  match times with
  | [] => []
  | t :: times' =>
      let '(r, sessions') := getSession t sessionId sessions in
      r :: read_all times' sessionId sessions'
  end.

(** The consistency of the in-memory store that the manager maintains:
    a record is stored under its own non-empty id, and the wallet index
    sends every non-empty key held by a record to that record. *)
Definition indexed (s : MemoryUserStore.State) : Prop :=
  ∀ i u,
    MemoryUserStore.users s !! i = Some u →
    id u = i ∧ truthy_str i = true
    ∧ ∀ k, walletPublicKey u = Some k → truthy_str k = true →
           MemoryUserStore.walletIndex s !! k = Some i.

End Props.

(** ** Vocabulary of the middleware properties *)

Module MiddlewareProps.
Import Auth Middleware Props.

Section WithPrimitives.
Context `{Primitives}.

(** Verification succeeds for [req]: its header is the text
    [Wallet k:signature:encodedMessage], possibly followed by a colon and
    more text, with three non-empty fields free of colons; the third field
    decodes, and the verifier accepts the triple under the options of the
    middleware. [k] is the key of the header. *)
Definition verified
    (options : MiddlewareOptions) (now : Z) (req : Request) (k : string)
  : Prop :=
  ∃ signature encodedMessage rest message,
    headers req !! toLowerCase (default "Authorization" (headerName options))
    = Some (HString ("Wallet " +:+ k +:+ ":" +:+ signature +:+ ":"
                     +:+ encodedMessage +:+ rest))
    ∧ k ≠ "" ∧ signature ≠ "" ∧ encodedMessage ≠ ""
    ∧ lacks ":" k = true ∧ lacks ":" signature = true
    ∧ lacks ":" encodedMessage = true
    ∧ (rest = "" ∨ ∃ more, rest = ":" +:+ more)
    ∧ decodeURIComponent encodedMessage = Some message
    ∧ valid (verifyWalletSignature now
               {| publicKey := k;
                  signature := signature;
                  message := message;
                  checkTimestamp :=
                    Some (default true (opt_checkTimestamp options));
                  maxAgeMs :=
                    Some (default 300000 (opt_maxAgeMs options)) |}) = true.
End WithPrimitives.

End MiddlewareProps.

(** ** Concrete inputs *)

Module Inputs.
Import Core Auth Session Users Run Middleware.

Definition t0 : Z := 1700000000000.

(** What [Math.random().toString(36)] may return. *)
Definition rnd0 : string := "0.4fzyo82mvyr".

Definition challenge (t : Z) : string :=
  generateSignatureMessage t rnd0 "Acme" None.

Definition proof_of (message : string) (maxAge : option Z)
  : VerifySignatureOptions :=
  {| Auth.publicKey := "7xKxabc"; signature := "5sig"; message := message;
     checkTimestamp := Some true; maxAgeMs := maxAge |}.

(** A challenge dated about three years after [t0]. *)
Definition future_proof : VerifySignatureOptions :=
  proof_of (challenge (t0 + 100000000000)) None.

Definition session_at' (created expires : Z) : WalletSession :=
  {| Session.publicKey := "7xKxabc"; userId := None; createdAt := created;
     expiresAt := Some expires; Session.metadata := None |}.

Definition session_at (expires : Z) : WalletSession :=
  session_at' 1 expires.

Definition zero_ttl : CreateOptions :=
  {| opt_userId := None; ttl := Some 0; Session.opt_metadata := None |}.

(** The store after one wallet signed in. *)
Definition linked : MemoryUserStore.State :=
  run [LinkOrCreateUser 10 (only_key "K")].

Definition record' (id : string) (k : option string) (at_ : option Z)
  : UserRecord :=
  {| id := id; Users.walletPublicKey := k; email := None;
     walletConnectedAt := at_; Users.metadata := Some ∅ |}.

Definition record : option string → option Z → UserRecord := record' "1".

Definition twice_empty : list Op :=
  [LinkOrCreateUser 10 (only_key ""); LinkOrCreateUser 11 (only_key "")].

Definition busy : list Op :=
  [LinkOrCreateUser 10 (only_key "K"); UnlinkWallet "1";
   LinkOrCreateUser 12 (only_key "K"); IsWalletLinked "K";
   LinkOrCreateUser 13 (only_key "L"); GetUserByPublicKey "L"].

Definition no_options : MiddlewareOptions :=
  {| headerName := None; opt_checkTimestamp := None; opt_maxAgeMs := None;
     onUnauthorized := false; onError := false |}.

(** A request whose header carries the key, a signature and the
    challenge of [t0]. *)
Definition signed_request : Request :=
  {| headers :=
       {[ "authorization" :=
            HString
              ("Wallet 7xKxabc:5sig:Acme%20wants%20you%20to%20sign%20in"
               +:+ "%20with%20your%20Solana%20account.%0A%0ANonce%3A%20"
               +:+ "82mvyr%0ATimestamp%3A%201700000000000") ]};
     Middleware.walletPublicKey := None |}.

(** Only two fields after the scheme. *)
Definition short_request : Request :=
  {| headers := {[ "authorization" := HString "Wallet abc:def" ]};
     Middleware.walletPublicKey := None |}.

End Inputs.

(** ** packages/core: utils, display helper *)

Module Display.

(** The first [n] characters of [s]. *)
Fixpoint take (n : nat) (s : string) : string :=
  match n, s with
  | S n', String c r => String c (take n' r)
  | _, _ => EmptyString
  end.

(** A relative index of [slice], brought into [0 .. len]. *)
Definition clamp (len i : Z) : nat :=
  Z.to_nat (if i <? 0 then Z.max (len + i) 0 else Z.min i len).

(** [s.slice(start, end)] for integral arguments; [end] is optional. *)
Definition slice_range (start : Z) (end_ : option Z) (s : string) : string :=
  let len := Z.of_nat (String.length s) in
  let from := clamp len start in
  let final :=
    match end_ with Some e => clamp len e | None => String.length s end in
  take (final - from) (slice from s).

(** [chars] defaults to [4]. *)
Definition truncatePublicKey (publicKey : string) (chars : option Z)
  : string :=
  let chars := default 4 chars in
  slice_range 0 (Some chars) publicKey +:+ "..."
  +:+ slice_range (- chars) None publicKey.

End Display.

(** ** packages/core: event-emitter

    A listener is known by its identity; what it does is outside the
    emitter, except whether it throws. Listeners are taken not to call the
    emitter back while it emits. *)

Module Emitter.

Inductive WalletEvent : Type :=
| connect
| disconnect
| error
| accountChanged.

Definition event_eqb (a b : WalletEvent) : bool :=
  match a, b with
  | connect, connect | disconnect, disconnect | error, error
  | accountChanged, accountChanged => true
  | _, _ => false
  end.

(** The identity of a callback. *)
Definition Callback : Type := nat.

(** [Map<WalletEvent, Set<EventCallback>>]: a set keeps its members in
    the order of insertion. *)
Definition Events : Type := WalletEvent → option (list Callback).

Definition no_events : Events := λ _, None.

(** [map.set(event, set)] *)
Definition put (event : WalletEvent) (v : option (list Callback))
    (events : Events) : Events :=
  λ e, if event_eqb e event then v else events e.

(** [set.add(callback)] *)
Definition add (callback : Callback) (set : list Callback) : list Callback :=
  if existsb (Nat.eqb callback) set then set else set ++ [callback].

(** [set.delete(callback)] *)
Definition remove (callback : Callback) (set : list Callback)
  : list Callback :=
  List.filter (λ c, negb (Nat.eqb callback c)) set.

Definition on (event : WalletEvent) (callback : Callback) (events : Events)
  : Events :=
  let events' :=
    match events event with
    | None => put event (Some []) events
    | Some _ => events
    end in
  put event (Some (add callback (default [] (events' event)))) events'.

Definition off (event : WalletEvent) (callback : Callback) (events : Events)
  : Events :=
  match events event with
  | Some callbacks => put event (Some (remove callback callbacks)) events
  | None => events
  end.

(** What [emit] makes happen, in order. *)
Inductive Trace : Type :=
| Called (callback : Callback) (data : option Value)
| Logged (event : WalletEvent).

(** [throws callback data] tells whether the call [callback(data)]
    throws; the error is caught and logged. *)
Definition emit (throws : Callback → option Value → bool)
    (event : WalletEvent) (data : option Value) (events : Events)
  : list Trace :=
  match events event with
  | Some callbacks =>
      flat_map
        (λ callback,
           if throws callback data
           then [Called callback data; Logged event]
           else [Called callback data])
        callbacks
  | None => []
  end.

(** [removeAllListeners(event?)]; every event name is a non-empty
    string. *)
Definition removeAllListeners (event : option WalletEvent) (events : Events)
  : Events :=
  match event with
  | Some event => put event None events
  | None => no_events
  end.

Inductive Op : Type :=
| On (event : WalletEvent) (callback : Callback)
| Off (event : WalletEvent) (callback : Callback)
| RemoveAllListeners (event : option WalletEvent).

Definition step (events : Events) (op : Op) : Events :=
  match op with
  | On event callback => on event callback events
  | Off event callback => off event callback events
  | RemoveAllListeners event => removeAllListeners event events
  end.

(** An emitter after a sequence of calls. *)
Definition run (ops : list Op) : Events := fold_left step ops no_events.

(** The listeners that [emit] calls, in order. *)
Definition called (trace : list Trace) : list Callback :=
  flat_map (λ t, match t with Called c _ => [c] | Logged _ => [] end) trace.

End Emitter.

(** ** packages/server: session and auth, the remaining functions *)

Module ServerMore.
Import Core.

(** [n.toString(16)] for a natural number. *)
Definition toString16 (n : nat) : string :=
  HexadecimalString.NilZero.string_of_uint (Nat.to_hex_uint n).

(** [generateSessionId()]; [draws i] is the value of
    [Math.floor(Math.random() * 16)] at the [i]-th call. *)
Definition generateSessionId (draws : nat → nat) : string :=
  String.concat EmptyString (map (λ i, toString16 (draws i)) (seq 0 32)).

(** [0-9a-f] *)
Definition is_hex (c : ascii) : bool :=
  let n := N_of_ascii c in
  (((48 <=? n) && (n <=? 57)) || ((97 <=? n) && (n <=? 102)))%N.

Fixpoint all_chars (p : ascii → bool) (s : string) : bool :=
  match s with
  | String c r => p c && all_chars p r
  | EmptyString => true
  end.

(** [createChallenge(appName, nonce)] of packages/server auth. *)
Definition createChallenge (now : Z) (appName nonce : string) : string :=
  appName +:+ " wants you to sign in with your Solana account." +:+ nl +:+ nl
  +:+ "Nonce: " +:+ nonce +:+ nl +:+ "Timestamp: " +:+ String_of_number now.

End ServerMore.

(** ** packages/nextjs: server utilities *)

Module NextServer.
Import Core.

Record VerifyWalletSignatureResult : Type := {
  valid : bool;
  publicKey : option string;
  error : option string
}.

Section WithPrimitives.
Context `{Primitives}.

(** The parameters are those of the server's verifier. *)
Definition verifyWalletSignature
    (now : Z) (params : Auth.VerifySignatureOptions)
  : VerifyWalletSignatureResult :=
  let checkTimestamp := default true (Auth.checkTimestamp params) in
  let maxAgeMs := default 300000 (Auth.maxAgeMs params) in
  if negb (isValidPublicKey (Auth.publicKey params))
  then {| valid := false; publicKey := None;
          error := Some "Invalid public key format" |}
  else if checkTimestamp
          && negb (isMessageTimestampValid now (Auth.message params) maxAgeMs)
  then {| valid := false; publicKey := None;
          error := Some "Message timestamp expired or invalid" |}
  else if verifySignature (Auth.message params) (Auth.signature params)
            (Auth.publicKey params)
  then {| valid := true; publicKey := Some (Auth.publicKey params);
          error := None |}
  else {| valid := false; publicKey := None;
          error := Some "Invalid signature" |}.
End WithPrimitives.

End NextServer.

(** ** examples/server-example

    The routes of the example application over the two in-memory stores.
    A request is served at one clock value; the fields of a request body
    are strings. *)

Module ExampleServer.
Import Auth Session Users.

Record State : Type := {
  userStore : MemoryUserStore.State;
  sessionStore : gmap string WalletSession
}.

Definition start : State :=
  {| userStore := MemoryUserStore.empty; sessionStore := ∅ |}.

Record Body : Type := {
  body_userId : option string;
  body_publicKey : string;
  body_signature : string;
  body_message : string
}.

Inductive Reply : Type :=
(** [{ success: true, sessionId, user: { id, walletPublicKey } }] *)
| Authenticated (sessionId id : string) (walletPublicKey : option string)
(** [{ success: true, user }] *)
| WalletLinked (user : UserRecord)
(** [res.status(status).json({ success: false, error })] *)
| Failed (status : Z) (error : option string)
(** [{ session, user }] *)
| SessionInfo (session : WalletSession) (user : option UserRecord)
(** [res.status(404).json({ error: 'Session not found' })] *)
| SessionNotFound
(** [{ success: true }] *)
| LoggedOut
(** a rejection in a route without a [catch]: no answer is written *)
| Unhandled (e : Error).

Definition message_of (e : Error) : string :=
  match e with JsError m => m end.

Section WithPrimitives.
Context `{Primitives}.

Definition verify (now : Z) (body : Body) : VerifySignatureResult :=
  verifyWalletSignature now
    {| Auth.publicKey := body_publicKey body;
       signature := body_signature body;
       message := body_message body;
       checkTimestamp := None;
       maxAgeMs := None |}.

(** [POST /api/auth/wallet]; [sessionId] is the identifier that
    [generateSessionId()] draws. *)
Definition authWallet (now : Z) (sessionId : string) (body : Body)
    (st : State) : Reply * State :=
  let result := verify now body in
  if negb (Auth.valid result) then (Failed 401 (Auth.error result), st)
  else
    let publicKey := default EmptyString (resultPublicKey result) in
    match linkOrCreateUser now
            {| Users.publicKey := publicKey; existingUserId := None;
               opt_email := None; Users.opt_metadata := None |}
            (userStore st) with
    | (Throw _, us) =>
        (Failed 500 (Some "Internal server error"),
         {| userStore := us; sessionStore := sessionStore st |})
    | (Return user, us) =>
        match createSession 86400000 now sessionId publicKey
                (Some {| opt_userId := Some (id user); ttl := None;
                         Session.opt_metadata := None |})
                (sessionStore st) with
        | (Throw _, ss) =>
            (Failed 500 (Some "Internal server error"),
             {| userStore := us; sessionStore := ss |})
        | (Return sessionId, ss) =>
            (Authenticated sessionId (id user) (walletPublicKey user),
             {| userStore := us; sessionStore := ss |})
        end
    end.

(** [POST /api/user/link-wallet] *)
Definition linkWallet (now : Z) (body : Body) (st : State) : Reply * State :=
  let result := verify now body in
  if negb (Auth.valid result) then (Failed 401 (Auth.error result), st)
  else
    match linkOrCreateUser now
            {| Users.publicKey := default EmptyString (resultPublicKey result);
               existingUserId := body_userId body;
               opt_email := None; Users.opt_metadata := None |}
            (userStore st) with
    | (Throw e, us) =>
        (Failed 500 (Some (message_of e)),
         {| userStore := us; sessionStore := sessionStore st |})
    | (Return user, us) =>
        (WalletLinked user,
         {| userStore := us; sessionStore := sessionStore st |})
    end.
End WithPrimitives.

(** [GET /api/session/:sessionId] *)
Definition sessionRoute (now : Z) (sessionId : string) (st : State)
  : Reply * State :=
  match getSession now sessionId (sessionStore st) with
  | (Throw e, ss) =>
      (Unhandled e, {| userStore := userStore st; sessionStore := ss |})
  | (Return None, ss) =>
      (SessionNotFound, {| userStore := userStore st; sessionStore := ss |})
  | (Return (Some session), ss) =>
      match getUserByPublicKey (Session.publicKey session) (userStore st) with
      | (Return user, us) =>
          (SessionInfo session user, {| userStore := us; sessionStore := ss |})
      | (Throw e, us) =>
          (Unhandled e, {| userStore := us; sessionStore := ss |})
      end
  end.

(** [POST /api/auth/logout] *)
Definition logout (sessionId : string) (st : State) : Reply * State :=
  match deleteSession sessionId (sessionStore st) with
  | (Return _, ss) =>
      (LoggedOut, {| userStore := userStore st; sessionStore := ss |})
  | (Throw e, ss) =>
      (Unhandled e, {| userStore := userStore st; sessionStore := ss |})
  end.

End ExampleServer.

(** ** Vocabulary of the further properties *)

Module MoreProps.
Import Users.

(** The ids that the in-memory user store has issued so far. *)
Definition issued (s : MemoryUserStore.State) (i : string) : Prop :=
  ∃ n, 1 <= n < MemoryUserStore.nextId s ∧ i = String_of_number n.

(** The records of the store are exactly those of the issued ids. *)
Definition counted (s : MemoryUserStore.State) : Prop :=
  1 <= MemoryUserStore.nextId s
  ∧ ∀ i, is_Some (MemoryUserStore.users s !! i) ↔ issued s i.

(** The key [k] is spent on [userId]: the wallet index sends it to that
    user, whose record is stored, and no record holds it. *)
Definition spent (k userId : string) (s : MemoryUserStore.State) : Prop :=
  MemoryUserStore.walletIndex s !! k = Some userId
  ∧ is_Some (MemoryUserStore.users s !! userId)
  ∧ ∀ j v, MemoryUserStore.users s !! j = Some v →
           walletPublicKey v ≠ Some k.

(** [s] has no occurrence of the character [c] (as in [Props.lacks]). *)
Definition no_colon (s : string) : bool := Props.lacks ":" s.

End MoreProps.

(** ** Further concrete inputs *)

Module MoreInputs.
Import Users Run Inputs.

(** The store after a wallet signed in and was unlinked again. *)
Definition unlinked : MemoryUserStore.State :=
  run [LinkOrCreateUser 10 (only_key "K"); UnlinkWallet "1"].

Definition with_email (k email : string) : UserLinkOptions :=
  {| publicKey := k; existingUserId := None; opt_email := Some email;
     opt_metadata := None |}.

(** The same with a user that also has an email. *)
Definition unlinked_mail : MemoryUserStore.State :=
  run [LinkOrCreateUser 10 (with_email "K" "ann@example.org");
       UnlinkWallet "1"].

Definition to_user (k userId : string) : UserLinkOptions :=
  {| publicKey := k; existingUserId := Some userId; opt_email := None;
     opt_metadata := None |}.

Definition mail_record : UserRecord :=
  {| id := "1"; walletPublicKey := None; email := Some "ann@example.org";
     walletConnectedAt := None; metadata := Some ∅ |}.

(** A sign-in request with the challenge of [t0]. *)
Definition sign_in : ExampleServer.Body :=
  {| ExampleServer.body_userId := None;
     ExampleServer.body_publicKey := "7xKxabc";
     ExampleServer.body_signature := "5sig";
     ExampleServer.body_message := challenge t0 |}.

(** A request to link the wallet of [sign_in] to the user ["1"]. *)
Definition link_request : ExampleServer.Body :=
  {| ExampleServer.body_userId := Some "1";
     ExampleServer.body_publicKey := "7xKxabc";
     ExampleServer.body_signature := "5sig";
     ExampleServer.body_message := challenge t0 |}.

(** The example server when one wallet has signed in. *)
Definition one_user : ExampleServer.State :=
  {| ExampleServer.userStore := linked; ExampleServer.sessionStore := ∅ |}.

End MoreInputs.

(** * Properties *)

(** ** The challenge text and the timestamp check *)

Section Timestamps.
Import Core Auth Props Inputs TestPrimitives.

(** Decimal text of a number and the digits the extractor reads. *)

Ltac eval_digit :=
  repeat match goal with
         | |- context [digit_val ?c] =>
             let v := eval vm_compute in (digit_val c) in
             change (digit_val c) with v
         end.

Section Digits.

Lemma take_digits_uint (d : Decimal.uint) :
  take_digits (NilEmpty.string_of_uint d) = NilEmpty.string_of_uint d.
Proof. induction d; simpl; [reflexivity | f_equal; assumption ..]. Qed.

Lemma parse_digits_uint_acc (d : Decimal.uint) (acc : positive) :
  parse_digits (Z.pos acc) (NilEmpty.string_of_uint d)
  = Z.pos (Pos.of_uint_acc d acc).
Proof.
  revert acc; induction d; intros acc; simpl; [reflexivity | ..];
    rewrite <- IHd; f_equal; eval_digit; lia.
Qed.

Lemma parse_digits_uint (d : Decimal.uint) :
  parse_digits 0 (NilEmpty.string_of_uint d) = Z.of_N (Pos.of_uint d).
Proof.
  induction d; simpl; [reflexivity | assumption | ..];
    apply (parse_digits_uint_acc d).
Qed.

Lemma parseInt10_uint (d : Decimal.uint) :
  d ≠ Decimal.Nil →
  parseInt10 (NilEmpty.string_of_uint d) = Some (Z.of_N (Pos.of_uint d)).
Proof.
  intros Hd. rewrite <- parse_digits_uint.
  destruct d; [congruence | reflexivity ..].
Qed.

Lemma truthy_uint (d : Decimal.uint) :
  d ≠ Decimal.Nil → truthy_str (NilEmpty.string_of_uint d) = true.
Proof. destruct d; [congruence | reflexivity ..]. Qed.

(** The decimal text of a non-negative number is a non-empty run of
    digits that reads back as the number. *)
Lemma String_of_number_digits (t : Z) :
  0 <= t →
  take_digits (String_of_number t) = String_of_number t
  ∧ truthy_str (String_of_number t) = true
  ∧ parseInt10 (String_of_number t) = Some t.
Proof.
  intros Ht. unfold String_of_number.
  destruct t as [|p|p]; [repeat split; reflexivity | | lia].
  simpl. pose proof (Unsigned.to_uint_nonnil p) as Hp.
  split; [apply take_digits_uint |].
  split; [apply truthy_uint; assumption |].
  rewrite parseInt10_uint by assumption.
  now rewrite DecimalPos.Unsigned.of_to.
Qed.

Lemma String_of_number_truthy (n : Z) :
  truthy_str (String_of_number n) = true.
Proof.
  destruct n as [|p|p]; [reflexivity | | reflexivity].
  apply truthy_uint, Unsigned.to_uint_nonnil.
Qed.

End Digits.

Section Matching.

Lemma capture_here_cons (d c : ascii) (p s : string) :
  capture_here (String d p) (String c s)
  = if Ascii.eqb d c then capture_here p s else None.
Proof. unfold capture_here; simpl. destruct (Ascii.eqb d c); reflexivity. Qed.

Lemma capture_here_app (x p b : string) :
  Forall (λ q, capture_here q b = None) (tails p) →
  capture_here p x = None →
  capture_here p (x +:+ b) = None.
Proof.
  revert p; induction x as [|c x IH]; intros p Hb Hx.
  - destruct p; inversion Hb; assumption.
  - destruct p as [|d p].
    + unfold capture_here in *; simpl in *.
      destruct (is_digit c); [discriminate | reflexivity].
    + change (String c x +:+ b) with (String c (x +:+ b)).
      rewrite capture_here_cons in *.
      destruct (Ascii.eqb d c); [| reflexivity].
      apply IH; [| assumption].
      simpl in Hb. inversion Hb; assumption.
Qed.

Lemma match_Timestamp_cons (c : ascii) (r : string) :
  match_Timestamp (String c r)
  = match capture_here stamp (String c r) with
    | Some ds => Some ds
    | None => match_Timestamp r
    end.
Proof. reflexivity. Qed.

Lemma strip_prefix_app (p s r : string) :
  strip_prefix p s = Some r → s = p +:+ r.
Proof.
  revert s; induction p as [|a p IH]; intros [|b s]; simpl;
    try discriminate; try (intros [= <-]; reflexivity).
  destruct (Ascii.eqb_spec a b) as [<- |]; [| discriminate].
  intros Hs. change (String a p +:+ r) with (String a (p +:+ r)).
  f_equal. apply IH, Hs.
Qed.

Lemma append_cons (c : ascii) (a b : string) :
  String c a +:+ b = String c (a +:+ b).
Proof. reflexivity. Qed.

(** A text is its leading digits followed by the rest. *)
Lemma take_digits_slice (r : string) :
  r = take_digits r +:+ slice (String.length (take_digits r)) r.
Proof.
  induction r as [|c r IH]; simpl; [reflexivity |].
  destruct (is_digit c); [| reflexivity].
  simpl. rewrite append_cons. f_equal. exact IH.
Qed.

Lemma take_digits_rest (r : string) :
  take_digits (slice (String.length (take_digits r)) r) = EmptyString.
Proof.
  induction r as [|c r IH]; simpl; [reflexivity |].
  destruct (is_digit c) eqn:Hc; simpl; [exact IH | now rewrite Hc].
Qed.

Lemma take_digits_idem (r : string) :
  take_digits (take_digits r) = take_digits r.
Proof.
  induction r as [|c r IH]; simpl; [reflexivity |].
  destruct (is_digit c) eqn:Hc; simpl; [| reflexivity].
  rewrite Hc. f_equal. exact IH.
Qed.

(** What the matcher returns is a non-empty run of digits that follows
    the literal in the text and is not continued by a digit. *)
Lemma match_Timestamp_sound (s ds : string) :
  match_Timestamp s = Some ds →
  ∃ pre post,
    s = pre +:+ stamp +:+ ds +:+ post
    ∧ truthy_str ds = true ∧ take_digits ds = ds
    ∧ take_digits post = EmptyString.
Proof.
  induction s as [|c s IH]; [discriminate |].
  rewrite match_Timestamp_cons.
  destruct (capture_here stamp (String c s)) as [ds'|] eqn:Hc.
  - intros [= ->]. unfold capture_here in Hc.
    destruct (strip_prefix stamp (String c s)) as [r|] eqn:Hp;
      [| discriminate].
    destruct (truthy_str (take_digits r)) eqn:Ht; [| discriminate].
    injection Hc as <-. apply strip_prefix_app in Hp.
    exists EmptyString, (slice (String.length (take_digits r)) r).
    split; [| split; [exact Ht | split]].
    + rewrite Hp. change (EmptyString +:+ ?x) with x.
      f_equal. apply take_digits_slice.
    + apply take_digits_idem.
    + apply take_digits_rest.
  - intros Hs. destruct (IH Hs) as (pre & post & -> & Hrest).
    exists (String c pre), post. split; [reflexivity | exact Hrest].
Qed.

(** Text without a match in front of [b] does not change the leftmost
    match, as long as it cannot begin one that [b] completes. *)
Lemma match_Timestamp_app (a b : string) :
  no_tail b →
  match_Timestamp a = None →
  match_Timestamp (a +:+ b) = match_Timestamp b.
Proof.
  intros Hb. induction a as [|c a IH]; intros Ha; [reflexivity |].
  rewrite match_Timestamp_cons in Ha.
  destruct (capture_here stamp (String c a)) eqn:Hc; [discriminate |].
  change (String c a +:+ b) with (String c (a +:+ b)).
  rewrite match_Timestamp_cons.
  change (String c (a +:+ b)) with (String c a +:+ b).
  rewrite (capture_here_app _ _ _ Hb Hc). auto.
Qed.

Lemma no_tail_intro (r : string) : no_tail (intro +:+ r).
Proof. repeat constructor. Qed.

Lemma no_tail_nl (r : string) : no_tail (nl +:+ r).
Proof. repeat constructor. Qed.

Lemma match_Timestamp_intro (r : string) :
  match_Timestamp (intro +:+ r) = match_Timestamp r.
Proof. reflexivity. Qed.

Lemma match_Timestamp_nl (r : string) :
  match_Timestamp (nl +:+ r) = match_Timestamp r.
Proof. reflexivity. Qed.

(** A run of digits right after the literal is captured whole. *)
Lemma match_Timestamp_here (ds : string) :
  take_digits ds = ds →
  truthy_str ds = true →
  match_Timestamp (stamp +:+ ds) = Some ds.
Proof.
  intros Hd Hne.
  change (stamp +:+ ds) with (String "T" ("imestamp: " +:+ ds)).
  rewrite match_Timestamp_cons.
  change (capture_here stamp (String "T" ("imestamp: " +:+ ds)))
    with (capture_here EmptyString ds).
  unfold capture_here; simpl. rewrite Hd, Hne. reflexivity.
Qed.

Lemma lacks_T_no_match (s : string) :
  lacks "T" s = true → match_Timestamp s = None.
Proof.
  induction s as [|c s IH]; intros Hs; [reflexivity |].
  simpl in Hs. apply andb_prop in Hs as [Hc Hs].
  rewrite match_Timestamp_cons, (IH Hs).
  unfold stamp. rewrite capture_here_cons.
  rewrite Ascii.eqb_sym. destruct (Ascii.eqb c "T"); [discriminate | reflexivity].
Qed.

Lemma lacks_slice (c : ascii) (n : nat) (s : string) :
  lacks c s = true → lacks c (slice n s) = true.
Proof.
  revert s; induction n as [|n IH]; intros s Hs; [assumption |].
  destruct s as [|a s]; [reflexivity |].
  simpl in *. apply andb_prop in Hs as [_ Hs]. auto.
Qed.

Lemma isMessageTimestampValid_extract (now maxAgeMs : Z) (message : string) :
  isMessageTimestampValid now message maxAgeMs
  = match extractTimestamp message with
    | Some timestamp => now - timestamp <? maxAgeMs
    | None => false
    end.
Proof.
  unfold isMessageTimestampValid, extractTimestamp.
  destruct (match_Timestamp message); reflexivity.
Qed.

End Matching.

(** C8 (as amended). A challenge generated at time [t >= 0] for an
    application name and a nonce that contain no text matching
    [Timestamp: \d+] is read back by the timestamp extractor as exactly
    [t]. The nonce is the caller's, or the generated one when the caller
    gave none or an empty one. *)
Theorem challenge_timestamp_roundtrip
    (t : Z) (rnd appName : string) (nonce : option string) :
  0 <= t →
  match_Timestamp appName = None →
  match_Timestamp (or_else nonce (randomNonce rnd)) = None →
  extractTimestamp (generateSignatureMessage t rnd appName nonce) = Some t.
Proof.
  intros Ht Happ Hnonce.
  unfold extractTimestamp, generateSignatureMessage.
  rewrite (match_Timestamp_app appName) by (apply no_tail_intro || assumption).
  rewrite match_Timestamp_intro.
  rewrite match_Timestamp_app by (apply no_tail_nl || assumption).
  destruct (String_of_number_digits t Ht) as (Hd & Hne & Hparse).
  rewrite match_Timestamp_nl, match_Timestamp_here by assumption.
  exact Hparse.
Qed.

(** A clock before the epoch prints a sign, which [\d+] does not match. *)
Example negative_clock_has_no_match :
  extractTimestamp (generateSignatureMessage (-5) rnd0 "Acme" None) = None.
Proof. vm_compute; reflexivity. Qed.

(** The generated nonce is made of base-36 digits and never holds a match. *)
Lemma generated_nonce_no_match (rnd : string) :
  lacks "T" rnd = true → match_Timestamp (randomNonce rnd) = None.
Proof. intros Hr. apply lacks_T_no_match, lacks_slice, Hr. Qed.

Lemma challenge_timestamp_roundtrip_witness :
  0 <= t0
  ∧ match_Timestamp "Acme" = None
  ∧ match_Timestamp (or_else None (randomNonce rnd0)) = None
  ∧ extractTimestamp (generateSignatureMessage t0 rnd0 "Acme" None) = Some t0.
Proof.
  assert (H0 : 0 <= t0) by (unfold t0; lia).
  assert (H1 : match_Timestamp "Acme" = None) by reflexivity.
  assert (H2 : match_Timestamp (or_else None (randomNonce rnd0)) = None)
    by reflexivity.
  split; [exact H0 |]. split; [exact H1 |]. split; [exact H2 |].
  exact (challenge_timestamp_roundtrip t0 rnd0 "Acme" None H0 H1 H2).
Defined.

(** C8 (as stated) fails: an application name that itself contains
    [Timestamp: 1] makes the extractor read [1], not the time of the
    challenge. *)
Lemma app_name_spoofs_timestamp :
  extractTimestamp (generateSignatureMessage t0 rnd0 "Timestamp: 1" None)
  = Some 1
  ∧ Some 1 ≠ Some t0.
Proof. split; [vm_compute; reflexivity | discriminate]. Qed.

Section Verifier.
Context `{Primitives}.

Lemma verify_past_timestamp_check (now : Z) (options : VerifySignatureOptions) :
  isValidPublicKey (publicKey options) = true →
  (default true (checkTimestamp options)
   && negb (isMessageTimestampValid now (message options)
              (default 300000 (maxAgeMs options))) = false) →
  verifyWalletSignature now options
  = if verifySignature (message options) (signature options)
         (publicKey options)
    then {| valid := true; resultPublicKey := Some (publicKey options);
            error := None;
            timestamp := extractTimestamp (message options) |}
    else invalid E_signature.
Proof.
  intros Hk Hts. unfold verifyWalletSignature. rewrite Hk, Hts. reflexivity.
Qed.

Lemma verify_timestamp_rejected (now : Z) (options : VerifySignatureOptions) :
  isValidPublicKey (publicKey options) = true →
  default true (checkTimestamp options) = true →
  isMessageTimestampValid now (message options)
    (default 300000 (maxAgeMs options)) = false →
  verifyWalletSignature now options = invalid E_timestamp.
Proof.
  intros Hk Hc Hts. unfold verifyWalletSignature. rewrite Hk, Hc, Hts.
  reflexivity.
Qed.

Lemma verify_error_not_timestamp (now : Z) (options : VerifySignatureOptions) :
  isMessageTimestampValid now (message options)
    (default 300000 (maxAgeMs options)) = true →
  error (verifyWalletSignature now options) ≠ Some E_timestamp.
Proof.
  intros Hts. unfold verifyWalletSignature. rewrite Hts, andb_false_r.
  destruct (isValidPublicKey _); simpl; [| discriminate].
  destruct (verifySignature _ _ _); simpl; discriminate.
Qed.

End Verifier.

(** C2 (as amended). A message whose embedded timestamp lies in the
    future, at any distance, passes the timestamp check for every
    non-negative [maxAgeMs]: verification with [checkTimestamp = true]
    never returns the timestamp error, and for a well-formed key its
    verdict is that of the signature check alone. *)
Theorem future_timestamp_passes `{Primitives}
    (now ts : Z) (options : VerifySignatureOptions) :
  extractTimestamp (message options) = Some ts →
  now < ts →
  0 <= default 300000 (maxAgeMs options) →
  isMessageTimestampValid now (message options)
    (default 300000 (maxAgeMs options)) = true
  ∧ error (verifyWalletSignature now options) ≠ Some E_timestamp
  ∧ (isValidPublicKey (publicKey options) = true →
     valid (verifyWalletSignature now options)
     = verifySignature (message options) (signature options)
         (publicKey options)).
Proof.
  intros Hts Hfut Hage.
  assert (Hok : isMessageTimestampValid now (message options)
                  (default 300000 (maxAgeMs options)) = true).
  { rewrite isMessageTimestampValid_extract, Hts. apply Z.ltb_lt. lia. }
  split; [exact Hok |]. split; [apply verify_error_not_timestamp, Hok |].
  intros Hk. rewrite verify_past_timestamp_check; [| assumption |].
  - destruct (verifySignature _ _ _); reflexivity.
  - rewrite Hok. apply andb_false_r.
Qed.

Lemma future_timestamp_passes_witness :
  extractTimestamp (message future_proof) = Some (t0 + 100000000000)
  ∧ t0 < t0 + 100000000000
  ∧ 0 <= default 300000 (maxAgeMs future_proof)
  ∧ isMessageTimestampValid t0 (message future_proof)
      (default 300000 (maxAgeMs future_proof)) = true
  ∧ error (@verifyWalletSignature accept_all t0 future_proof)
    ≠ Some E_timestamp
  ∧ (@isValidPublicKey accept_all (publicKey future_proof) = true →
     valid (@verifyWalletSignature accept_all t0 future_proof)
     = @verifySignature accept_all (message future_proof)
         (signature future_proof) (publicKey future_proof)).
Proof.
  assert (H1 : extractTimestamp (message future_proof)
               = Some (t0 + 100000000000)) by (vm_compute; reflexivity).
  assert (H2 : t0 < t0 + 100000000000) by lia.
  assert (H3 : 0 <= default 300000 (maxAgeMs future_proof)) by (simpl; lia).
  split; [exact H1 |]. split; [exact H2 |]. split; [exact H3 |].
  exact (@future_timestamp_passes accept_all t0 (t0 + 100000000000)
           future_proof H1 H2 H3).
Defined.

(** C2 (as stated) fails: a challenge dated about three years after the
    current time, with a good signature, verifies with
    [checkTimestamp = true]. *)
Lemma future_timestamp_accepted :
  extractTimestamp (message future_proof) = Some (t0 + 100000000000)
  ∧ checkTimestamp future_proof = Some true
  ∧ @verifyWalletSignature accept_all t0 future_proof
    = {| valid := true; resultPublicKey := Some "7xKxabc"; error := None;
         timestamp := Some (t0 + 100000000000) |}.
Proof. repeat split; vm_compute; reflexivity. Qed.

(** C9. With the timestamp check on and any [maxAgeMs], a message whose
    timestamp is exactly [maxAgeMs + 1] milliseconds old is rejected by the
    timestamp check (and, for a well-formed key, by the verifier with the
    timestamp error), and one exactly [maxAgeMs - 1] milliseconds old is
    accepted: verification does not fail for timestamp reasons. *)
Theorem timestamp_boundary `{Primitives}
    (stale fresh ts age : Z) (options : VerifySignatureOptions) :
  extractTimestamp (message options) = Some ts →
  default true (checkTimestamp options) = true →
  default 300000 (maxAgeMs options) = age →
  stale - ts = age + 1 →
  fresh - ts = age - 1 →
  (isMessageTimestampValid stale (message options) age = false
   ∧ (isValidPublicKey (publicKey options) = true →
      verifyWalletSignature stale options = invalid E_timestamp))
  ∧ (isMessageTimestampValid fresh (message options) age = true
     ∧ error (verifyWalletSignature fresh options) ≠ Some E_timestamp).
Proof.
  intros Hts Hc Hage Hstale Hfresh. split.
  - assert (Hno : isMessageTimestampValid stale (message options) age = false).
    { rewrite isMessageTimestampValid_extract, Hts. apply Z.ltb_ge. lia. }
    split; [exact Hno |]. intros Hk.
    apply verify_timestamp_rejected; [assumption .. |]. now rewrite Hage.
  - assert (Hok : isMessageTimestampValid fresh (message options) age = true).
    { rewrite isMessageTimestampValid_extract, Hts. apply Z.ltb_lt. lia. }
    split; [exact Hok |].
    apply verify_error_not_timestamp. now rewrite Hage.
Qed.

Lemma timestamp_boundary_witness :
  extractTimestamp (message (proof_of (challenge t0) None)) = Some t0
  ∧ (t0 + 300001) - t0 = 300000 + 1
  ∧ (t0 + 299999) - t0 = 300000 - 1
  ∧ (isMessageTimestampValid (t0 + 300001)
       (message (proof_of (challenge t0) None)) 300000 = false
     ∧ (@isValidPublicKey accept_all
          (publicKey (proof_of (challenge t0) None)) = true →
        @verifyWalletSignature accept_all (t0 + 300001)
          (proof_of (challenge t0) None) = invalid E_timestamp))
  ∧ (isMessageTimestampValid (t0 + 299999)
       (message (proof_of (challenge t0) None)) 300000 = true
     ∧ error (@verifyWalletSignature accept_all (t0 + 299999)
                (proof_of (challenge t0) None)) ≠ Some E_timestamp).
Proof.
  assert (H1 : extractTimestamp (message (proof_of (challenge t0) None))
               = Some t0) by (vm_compute; reflexivity).
  assert (H2 : (t0 + 300001) - t0 = 300000 + 1) by lia.
  assert (H3 : (t0 + 299999) - t0 = 300000 - 1) by lia.
  split; [exact H1 |]. split; [exact H2 |]. split; [exact H3 |].
  exact (@timestamp_boundary accept_all (t0 + 300001) (t0 + 299999) t0 300000
           (proof_of (challenge t0) None) H1 eq_refl eq_refl H2 H3).
Defined.

(** The boundary itself: a message exactly [maxAgeMs] old is rejected. *)
Example timestamp_at_max_age :
  isMessageTimestampValid (t0 + 300000) (challenge t0) 300000 = false.
Proof. vm_compute; reflexivity. Qed.

End Timestamps.

(** ** Sessions *)

Section SessionProperties.
Import Session Props Inputs.

Section Sessions.

Lemma getSession_absent (now : Z) (sessionId : string)
    (sessions : gmap string WalletSession) :
  sessions !! sessionId = None →
  getSession now sessionId sessions = (Return None, sessions).
Proof.
  intros Hs. unfold getSession; simpl. unfold MemorySessionStore.get.
  rewrite Hs. reflexivity.
Qed.

Lemma read_all_absent (times : list Z) (sessionId : string)
    (sessions : gmap string WalletSession) :
  sessions !! sessionId = None →
  Forall (λ r, r = Return None) (read_all times sessionId sessions).
Proof.
  intros Hs. induction times as [|t times IH]; simpl; [constructor |].
  rewrite getSession_absent by assumption. constructor; auto.
Qed.

End Sessions.

(** C4 (as amended). The session that [createSession] persists under the
    returned identifier has [createdAt = now] and
    [expiresAt = now + ttl], where [ttl] is [options.ttl] when it is given
    and is not zero, and [defaultTTL] otherwise. *)
Theorem createSession_persists
    (defaultTTL now : Z) (sessionId publicKey : string)
    (options : option CreateOptions) (sessions : gmap string WalletSession) :
  ∃ session sessions',
    createSession defaultTTL now sessionId publicKey options sessions
    = (Return sessionId, sessions')
    ∧ sessions' !! sessionId = Some session
    ∧ createdAt session = now
    ∧ expiresAt session
      = Some (now + match options ≫= ttl with
                    | Some t => if t =? 0 then defaultTTL else t
                    | None => defaultTTL
                    end).
Proof.
  eexists _, _. split; [reflexivity |].
  split; [apply lookup_insert_eq |].
  split; [reflexivity |]. simpl. unfold ttl_or, truthy_num.
  destruct (options ≫= ttl) as [t|]; [| reflexivity].
  destruct (t =? 0); reflexivity.
Qed.

(** C4 (as stated) fails: with [ttl = 0] the stored session expires
    [defaultTTL] after [now], not at [now]. *)
Lemma zero_ttl_uses_default :
  ttl zero_ttl = Some 0
  ∧ expiresAt
      <$> (createSession DEFAULT_TTL 1000 "ab12" "7xKxabc" (Some zero_ttl) ∅).2
          !! "ab12"
    = Some (Some (1000 + DEFAULT_TTL))
  ∧ Some (Some (1000 + DEFAULT_TTL)) ≠ Some (Some (1000 + 0)).
Proof.
  split; [reflexivity |]. split; [vm_compute; reflexivity | discriminate].
Qed.

(** C7 (as amended). [getSession] returns null when no session is stored
    under the identifier, or when the stored session has an [expiresAt]
    that is not zero and lies in the past; the store then no longer holds
    the identifier, and every later read of it returns null. *)
Theorem getSession_missing_or_expired
    (now : Z) (sessionId : string) (sessions : gmap string WalletSession) :
  (sessions !! sessionId = None
   ∨ ∃ session e,
       sessions !! sessionId = Some session
       ∧ expiresAt session = Some e ∧ e ≠ 0 ∧ e < now) →
  getSession now sessionId sessions
  = (Return None, base.delete sessionId sessions)
  ∧ base.delete sessionId sessions !! sessionId = None
  ∧ ∀ times,
      Forall (λ r, r = Return None)
        (read_all times sessionId (base.delete sessionId sessions)).
Proof.
  intros Hs.
  assert (Hgone : base.delete sessionId sessions !! sessionId = None)
    by apply lookup_delete_eq.
  split; [| split; [exact Hgone | intros times; now apply read_all_absent]].
  destruct Hs as [Hs | (session & e & Hs & He & Hnz & Hlt)].
  - rewrite delete_id by assumption. now apply getSession_absent.
  - unfold getSession; simpl. unfold MemorySessionStore.get, expired.
    rewrite Hs, He. unfold truthy_num.
    destruct (Z.eqb_spec e 0) as [|_]; [contradiction |].
    destruct (Z.ltb_spec e now) as [_|]; [reflexivity | lia].
Qed.

Lemma getSession_missing_or_expired_witness :
  ({[ "s1" := session_at 500 ]} : gmap string WalletSession) !! "s1"
  = Some (session_at 500)
  ∧ expiresAt (session_at 500) = Some 500 ∧ 500 ≠ 0 ∧ 500 < 1000
  ∧ getSession 1000 "s1" {[ "s1" := session_at 500 ]}
    = (Return None, base.delete "s1" {[ "s1" := session_at 500 ]})
  ∧ base.delete "s1"
      ({[ "s1" := session_at 500 ]} : gmap string WalletSession) !! "s1"
    = None
  ∧ ∀ times,
      Forall (λ r, r = Return None)
        (read_all times "s1" (base.delete "s1" {[ "s1" := session_at 500 ]})).
Proof.
  assert (H1 : ({[ "s1" := session_at 500 ]} : gmap string WalletSession)
               !! "s1" = Some (session_at 500)) by reflexivity.
  assert (H2 : expiresAt (session_at 500) = Some 500) by reflexivity.
  assert (H3 : 500 ≠ 0) by lia.
  assert (H4 : 500 < 1000) by lia.
  split; [exact H1 |]. split; [exact H2 |]. split; [exact H3 |].
  split; [exact H4 |].
  exact (getSession_missing_or_expired 1000 "s1" {[ "s1" := session_at 500 ]}
           (or_intror
              (ex_intro _ (session_at 500)
                 (ex_intro _ 500 (conj H1 (conj H2 (conj H3 H4))))))).
Defined.

(** C7 (as stated) fails: a stored session whose [expiresAt] is [0] lies
    in the past at every positive time, and is still returned and kept. *)
Lemma zero_expiry_never_expires :
  expiresAt (session_at 0) = Some 0
  ∧ 0 < 1000
  ∧ getSession 1000 "s1" {[ "s1" := session_at 0 ]}
    = (Return (Some (session_at 0)), {[ "s1" := session_at 0 ]}).
Proof. split; [reflexivity |]. split; [lia | vm_compute; reflexivity]. Qed.

(** A session read at its expiry time and one millisecond later. *)
Example session_expires_lazily :
  (getSession (1000 + DEFAULT_TTL) "ab12"
     (createSession DEFAULT_TTL 1000 "ab12" "7xKxabc" None ∅).2).1
  = Return (Some (session_at' 1000 (1000 + DEFAULT_TTL)))
  ∧ getSession (1001 + DEFAULT_TTL) "ab12"
      (createSession DEFAULT_TTL 1000 "ab12" "7xKxabc" None ∅).2
    = (Return None, ∅).
Proof. split; vm_compute; reflexivity. Qed.

End SessionProperties.

(** ** User linking *)

Section UserProperties.
Import Users Run Props Inputs.

Ltac run_store :=
  unfold linkOrCreateUser, unlinkWallet, getUserByPublicKey, isWalletLinked,
    bind, ret, throw; simpl;
  unfold MemoryUserStore.findByPublicKey, MemoryUserStore.findByUserId,
    MemoryUserStore.findByEmail.

Section MemoryStore.
Implicit Types (s : MemoryUserStore.State) (u : UserRecord).

Lemma falsy_drop_old (old : option string) (index : gmap string string) :
  truthy old = false → MemoryUserStore.drop_old old index = index.
Proof.
  destruct old as [o|]; simpl; [| reflexivity]. now intros ->.
Qed.

(** A key that the index does not resolve is held by no record. *)
Lemma indexed_unheld s (k : string) i u :
  indexed s →
  MemoryUserStore.via_index (MemoryUserStore.walletIndex s) k s = None →
  MemoryUserStore.users s !! i = Some u →
  truthy_str k = true →
  walletPublicKey u ≠ Some k.
Proof.
  intros Hi Hnone Hu Hk Hw.
  destruct (Hi i u Hu) as (_ & Hid & Hidx).
  unfold MemoryUserStore.via_index in Hnone.
  rewrite (Hidx k Hw Hk), Hid, Hu in Hnone. discriminate.
Qed.

Lemma indexed_empty : indexed MemoryUserStore.empty.
Proof. intros i u Hu. simpl in Hu. now rewrite lookup_empty in Hu. Qed.

Lemma indexed_create s (now : Z) (options : UserLinkOptions) :
  indexed s →
  MemoryUserStore.via_index (MemoryUserStore.walletIndex s)
    (publicKey options) s = None →
  indexed (MemoryUserStore.create (create_data now options) s).2.
Proof.
  intros Hi Hnone i u. simpl.
  destruct (decide (String_of_number (MemoryUserStore.nextId s) = i))
    as [<- | Hne].
  - rewrite lookup_insert_eq. intros [= <-]. simpl.
    split; [reflexivity |]. split; [apply String_of_number_truthy |].
    intros k [= <-] Hk. rewrite Hk. apply lookup_insert_eq.
  - rewrite lookup_insert_ne by assumption. intros Hu.
    destruct (Hi i u Hu) as (Hid & Hti & Hidx).
    split; [assumption |]. split; [assumption |].
    intros k Hw Hk. specialize (Hidx k Hw Hk).
    destruct (truthy_str (publicKey options)) eqn:Hpk; [| assumption].
    rewrite lookup_insert_ne; [assumption |].
    intros Heq. apply (indexed_unheld s k i u); try assumption.
    now rewrite <- Heq.
Qed.

Lemma indexed_link s (now : Z) (k userId : string) user
    (metadata' : option Metadata) :
  indexed s →
  MemoryUserStore.via_index (MemoryUserStore.walletIndex s) k s = None →
  MemoryUserStore.users s !! userId = Some user →
  truthy (walletPublicKey user) = false →
  indexed (MemoryUserStore.update userId
             (link_data now k user metadata') s).2.
Proof.
  intros Hi Hnone Huser Hfalsy i u.
  unfold MemoryUserStore.update. rewrite Huser. simpl.
  rewrite (falsy_drop_old _ _ Hfalsy).
  destruct (Hi userId user Huser) as (Hself & Htid & _).
  destruct (decide (userId = i)) as [<- | Hne].
  - rewrite lookup_insert_eq. intros [= <-]. simpl.
    split; [assumption |]. split; [assumption |].
    intros k' [= <-] Hk. rewrite Hk. apply lookup_insert_eq.
  - rewrite lookup_insert_ne by assumption. intros Hu.
    destruct (Hi i u Hu) as (Hid & Hti & Hidx).
    split; [assumption |]. split; [assumption |].
    intros k' Hw Hk. specialize (Hidx k' Hw Hk).
    destruct (truthy_str k) eqn:Hpk; [| assumption].
    rewrite lookup_insert_ne; [assumption |].
    intros Heq. apply (indexed_unheld s k' i u); try assumption.
    now rewrite <- Heq.
Qed.

Lemma indexed_unlink s (userId : string) :
  indexed s → indexed (MemoryUserStore.update userId unlink_data s).2.
Proof.
  intros Hi i u. unfold MemoryUserStore.update.
  destruct (MemoryUserStore.users s !! userId) as [user|] eqn:Huser;
    simpl; [| apply Hi].
  destruct (Hi userId user Huser) as (Hself & Htid & _).
  destruct (decide (userId = i)) as [<- | Hne].
  - rewrite lookup_insert_eq. intros [= <-]. simpl.
    split; [assumption |]. split; [assumption |]. discriminate.
  - rewrite lookup_insert_ne by assumption. apply Hi.
Qed.

Lemma indexed_linkOrCreateUser s (now : Z) (options : UserLinkOptions) :
  indexed s → indexed (linkOrCreateUser now options s).2.
Proof.
  intros Hi. run_store.
  destruct (MemoryUserStore.via_index _ (publicKey options) s)
    as [existing|] eqn:Hfind; [exact Hi |].
  destruct (truthy (existingUserId options)).
  - destruct (MemoryUserStore.users s !! _) as [user|] eqn:Huser;
      [| exact Hi].
    destruct (truthy (walletPublicKey user)) eqn:Hw; [exact Hi |].
    now apply indexed_link.
  - destruct (truthy (opt_email options)); [| now apply indexed_create].
    destruct (MemoryUserStore.via_index (MemoryUserStore.emailIndex s) _ s)
      as [user|] eqn:Hmail;
      [| now apply indexed_create].
    destruct (truthy (walletPublicKey user)) eqn:Hw; [exact Hi |].
    apply indexed_link; try assumption.
    unfold MemoryUserStore.via_index in Hmail.
    destruct (MemoryUserStore.emailIndex s !! _) as [j|]; [| discriminate].
    destruct (truthy_str j); [| discriminate].
    destruct (Hi j user Hmail) as (-> & _). assumption.
Qed.

Lemma indexed_step s (op : Op) : indexed s → indexed (step s op).
Proof.
  intros Hi. destruct op as [now options | userId | k | k]; simpl.
  - now apply indexed_linkOrCreateUser.
  - run_store.
    destruct (MemoryUserStore.users s !! userId) eqn:Hu; [| exact Hi].
    now apply (indexed_unlink s userId).
  - exact Hi.
  - exact Hi.
Qed.

Lemma indexed_fold (ops : list Op) s :
  indexed s → indexed (fold_left step ops s).
Proof.
  revert s; induction ops as [|op ops IH]; intros s Hi; [exact Hi |].
  simpl. apply IH, indexed_step, Hi.
Qed.

Lemma indexed_held_once s (k : string) :
  indexed s → truthy_str k = true → held_once k s.
Proof.
  intros Hi Hk i j u v Hu Hv Hwu Hwv.
  destruct (Hi i u Hu) as (_ & _ & Hiu).
  destruct (Hi j v Hv) as (_ & _ & Hjv).
  specialize (Hiu k Hwu Hk). specialize (Hjv k Hwv Hk). congruence.
Qed.

End MemoryStore.

(** C5 (as amended). From the empty in-memory store, every sequence of
    manager operations run one after the other leaves at most one record
    holding any given non-empty [walletPublicKey]. *)
Theorem wallet_key_unique (ops : list Op) (k : string) :
  truthy_str k = true → held_once k (run ops).
Proof.
  intros Hk. apply indexed_held_once; [| assumption].
  apply indexed_fold, indexed_empty.
Qed.

Lemma wallet_key_unique_witness :
  truthy_str "K" = true ∧ held_once "K" (run busy).
Proof.
  split; [reflexivity |]. exact (wallet_key_unique busy "K" eq_refl).
Defined.

(** C5 (as stated) fails: the empty key is never indexed, so linking it
    twice creates two records that both hold it. *)
Lemma empty_key_held_twice : ¬ held_once "" (run twice_empty).
Proof.
  intros Hone.
  assert (Heq : "1" = "2"); [| discriminate].
  apply (Hone "1" "2" (record' "1" (Some "") (Some 10))
           (record' "2" (Some "") (Some 11))); reflexivity.
Qed.

(** C6 (as amended). For every non-empty [publicKey] and every state of
    the in-memory store, two calls of [linkOrCreateUser] with only that
    key return the same record, and the second call leaves the store
    unchanged. *)
Theorem linkOrCreateUser_idempotent
    (s : MemoryUserStore.State) (k : string) (now1 now2 : Z) :
  truthy_str k = true →
  ∃ u s1,
    linkOrCreateUser now1 (only_key k) s = (Return u, s1)
    ∧ linkOrCreateUser now2 (only_key k) s1 = (Return u, s1).
Proof.
  intros Hk. run_store.
  destruct (MemoryUserStore.via_index _ k s) as [existing|] eqn:Hfind.
  - eexists _, _. split; [reflexivity |]. now rewrite Hfind.
  - eexists _, _. split; [reflexivity |].
    unfold MemoryUserStore.via_index; simpl.
    rewrite Hk, lookup_insert_eq, String_of_number_truthy, lookup_insert_eq.
    reflexivity.
Qed.

Lemma linkOrCreateUser_idempotent_witness :
  truthy_str "K" = true
  ∧ ∃ u s1,
      linkOrCreateUser 10 (only_key "K") MemoryUserStore.empty
      = (Return u, s1)
      ∧ linkOrCreateUser 11 (only_key "K") s1 = (Return u, s1).
Proof.
  split; [reflexivity |].
  exact (linkOrCreateUser_idempotent MemoryUserStore.empty "K" 10 11 eq_refl).
Defined.

(** C6 (as stated) fails: with the empty key the two calls return two
    different records and the second call changes the store. *)
Lemma empty_key_not_idempotent :
  ∃ u v s1 s2,
    linkOrCreateUser 10 (only_key "") MemoryUserStore.empty = (Return u, s1)
    ∧ linkOrCreateUser 11 (only_key "") s1 = (Return v, s2)
    ∧ u ≠ v ∧ s2 ≠ s1.
Proof.
  eexists _, _, _, _.
  split; [reflexivity |]. split; [reflexivity |]. split; intros Heq.
  - apply (f_equal id) in Heq. vm_compute in Heq. discriminate.
  - apply (f_equal MemoryUserStore.nextId) in Heq. vm_compute in Heq.
    discriminate.
Qed.

(** C1, what the code does. When the wallet index sends [k] to a record
    that holds [k], [unlinkWallet] returns that record with
    [walletPublicKey] and [walletConnectedAt] cleared, but the index keeps
    its entry: afterwards [getUserByPublicKey k] returns the unlinked
    record, not null, and [isWalletLinked k] returns true. *)
Theorem unlinkWallet_keeps_index
    (s : MemoryUserStore.State) (userId k : string) (u : UserRecord) :
  MemoryUserStore.users s !! userId = Some u →
  walletPublicKey u = Some k →
  MemoryUserStore.walletIndex s !! k = Some userId →
  truthy_str userId = true →
  ∃ u' s',
    unlinkWallet userId s = (Return u', s')
    ∧ walletPublicKey u' = None ∧ walletConnectedAt u' = None
    ∧ getUserByPublicKey k s' = (Return (Some u'), s')
    ∧ isWalletLinked k s' = (Return true, s').
Proof.
  intros Hu Hw Hidx Hid. run_store. rewrite Hu.
  unfold MemoryUserStore.update. rewrite Hu. simpl.
  eexists _, _. split; [reflexivity |].
  split; [reflexivity |]. split; [reflexivity |].
  unfold MemoryUserStore.via_index; simpl.
  rewrite Hidx, Hid, lookup_insert_eq. split; reflexivity.
Qed.

Lemma unlinkWallet_keeps_index_witness :
  MemoryUserStore.users linked !! "1" = Some (record (Some "K") (Some 10))
  ∧ MemoryUserStore.walletIndex linked !! "K" = Some "1"
  ∧ ∃ u' s',
      unlinkWallet "1" linked = (Return u', s')
      ∧ walletPublicKey u' = None ∧ walletConnectedAt u' = None
      ∧ getUserByPublicKey "K" s' = (Return (Some u'), s')
      ∧ isWalletLinked "K" s' = (Return true, s').
Proof.
  assert (H1 : MemoryUserStore.users linked !! "1"
               = Some (record (Some "K") (Some 10))) by reflexivity.
  assert (H2 : MemoryUserStore.walletIndex linked !! "K" = Some "1")
    by reflexivity.
  split; [exact H1 |]. split; [exact H2 |].
  exact (unlinkWallet_keeps_index linked "1" "K" (record (Some "K") (Some 10))
           H1 eq_refl H2 eq_refl).
Defined.

(** The same on the run that a caller observes. *)
Example unlinked_wallet_still_linked :
  (isWalletLinked "K" (run [LinkOrCreateUser 10 (only_key "K")])).1
  = Return true
  ∧ (isWalletLinked "K"
       (run [LinkOrCreateUser 10 (only_key "K"); UnlinkWallet "1"])).1
    = Return true
  ∧ (getUserByPublicKey "K"
       (run [LinkOrCreateUser 10 (only_key "K"); UnlinkWallet "1"])).1
    = Return (Some (record None None)).
Proof. repeat split. Qed.

(** C3 (as amended). When the store's [create] or [update] throws during
    [linkOrCreateUser], whatever the error, the manager lets that very
    error escape and stops in the state the failing call left: it neither
    reads again nor turns the error into another one. *)
Theorem linkOrCreateUser_propagates_store_error
    {St : Type} `{UserStore St}
    (now : Z) (options : UserLinkOptions) (s s1 s2 s3 : St) (e : Error) :
  findByPublicKey (publicKey options) s = (Return None, s1) →
  ((∃ userId user,
      existingUserId options = Some userId ∧ truthy_str userId = true
      ∧ findByUserId userId s1 = (Return (Some user), s2)
      ∧ truthy (walletPublicKey user) = false
      ∧ update userId
          (link_data now (publicKey options) user (opt_metadata options)) s2
        = (Throw e, s3))
   ∨ (∃ email user,
        truthy (existingUserId options) = false
        ∧ opt_email options = Some email ∧ truthy_str email = true
        ∧ findByEmail email s1 = (Return (Some user), s2)
        ∧ truthy (walletPublicKey user) = false
        ∧ update (id user)
            (link_data now (publicKey options) user (opt_metadata options)) s2
          = (Throw e, s3))
   ∨ (∃ email,
        truthy (existingUserId options) = false
        ∧ opt_email options = Some email ∧ truthy_str email = true
        ∧ findByEmail email s1 = (Return None, s2)
        ∧ create (create_data now options) s2 = (Throw e, s3))
   ∨ (truthy (existingUserId options) = false
      ∧ truthy (opt_email options) = false
      ∧ create (create_data now options) s1 = (Throw e, s3))) →
  linkOrCreateUser now options s = (Throw e, s3).
Proof.
  intros Hread Hwrite. unfold linkOrCreateUser, bind. rewrite Hread.
  destruct Hwrite as
    [(userId & user & Hid & Ht & Hfind & Hw & Hup)
    |[(email & user & Hno & Hmail & Ht & Hfind & Hw & Hup)
     |[(email & Hno & Hmail & Ht & Hfind & Hcr)
      |(Hno & Hnomail & Hcr)]]].
  - rewrite Hid; simpl. rewrite Ht, Hfind, Hw. exact Hup.
  - rewrite Hno, Hmail; simpl. rewrite Ht, Hfind, Hw. exact Hup.
  - rewrite Hno, Hmail; simpl. rewrite Ht, Hfind. exact Hcr.
  - rewrite Hno, Hnomail. exact Hcr.
Qed.

Lemma linkOrCreateUser_propagates_store_error_witness :
  RacingStore.findByPublicKey "K1" (RacingStore.start "K1")
  = (Return None, (RacingStore.findByPublicKey "K1" (RacingStore.start "K1")).2)
  ∧ RacingStore.create (create_data 5 (only_key "K1"))
      (RacingStore.findByPublicKey "K1" (RacingStore.start "K1")).2
    = (Throw RacingStore.E_unique,
       (RacingStore.findByPublicKey "K1" (RacingStore.start "K1")).2)
  ∧ linkOrCreateUser 5 (only_key "K1") (RacingStore.start "K1")
    = (Throw RacingStore.E_unique,
       (RacingStore.findByPublicKey "K1" (RacingStore.start "K1")).2).
Proof.
  assert (H1 : RacingStore.findByPublicKey "K1" (RacingStore.start "K1")
               = (Return None,
                  (RacingStore.findByPublicKey "K1"
                     (RacingStore.start "K1")).2)) by reflexivity.
  assert (H2 : RacingStore.create (create_data 5 (only_key "K1"))
                 (RacingStore.findByPublicKey "K1" (RacingStore.start "K1")).2
               = (Throw RacingStore.E_unique,
                  (RacingStore.findByPublicKey "K1"
                     (RacingStore.start "K1")).2))
    by (vm_compute; reflexivity).
  split; [exact H1 |]. split; [exact H2 |].
  exact (linkOrCreateUser_propagates_store_error 5 (only_key "K1")
           (RacingStore.start "K1") _
           (RacingStore.findByPublicKey "K1" (RacingStore.start "K1")).2 _
           RacingStore.E_unique H1
           (or_intror (or_intror (or_intror
              (conj eq_refl (conj eq_refl H2)))))).
Defined.

(** C3 (as stated) fails: behind a uniqueness constraint, with a second
    request inserting the same key between this request's read and its
    [create], the manager throws the raw storage error after a single
    read, not "wallet already linked". *)
Lemma racing_create_raw_error :
  ∃ s',
    linkOrCreateUser 5 (only_key "K1") (RacingStore.start "K1")
    = (Throw RacingStore.E_unique, s')
    ∧ RacingStore.reads s' = 1%nat
    ∧ RacingStore.E_unique ≠ E_wallet_linked.
Proof.
  eexists. split; [vm_compute; reflexivity |].
  split; [reflexivity | discriminate].
Qed.

End UserProperties.

(** ** Optional middleware *)

Section MiddlewareProperties.
Import Auth Middleware Props MiddlewareProps Inputs TestPrimitives.

Lemma append_nil (s : string) : s +:+ EmptyString = s.
Proof.
  induction s as [|c s IH]; [reflexivity |].
  rewrite append_cons. now rewrite IH.
Qed.

Lemma append_snoc (cur : string) (c : ascii) (a : string) :
  (cur +:+ String c EmptyString) +:+ a = cur +:+ String c a.
Proof.
  induction cur as [|x cur IH]; [reflexivity |].
  rewrite !append_cons. now rewrite IH.
Qed.

Lemma lacks_split_go (sep : ascii) (cur a : string) :
  lacks sep a = true → split_go sep cur a = [cur +:+ a].
Proof.
  revert cur; induction a as [|c a IH]; intros cur; simpl.
  - intros _. now rewrite append_nil.
  - intros [Hc Ha]%andb_prop. destruct (Ascii.eqb c sep); [discriminate |].
    rewrite (IH _ Ha). now rewrite append_snoc.
Qed.

Lemma lacks_split_go_sep (sep : ascii) (cur a r : string) :
  lacks sep a = true →
  split_go sep cur (a +:+ String sep r)
  = (cur +:+ a) :: split_go sep EmptyString r.
Proof.
  revert cur; induction a as [|c a IH]; intros cur.
  - intros _. change (EmptyString +:+ String sep r) with (String sep r).
    simpl. rewrite Ascii.eqb_refl. now rewrite append_nil.
  - simpl. intros [Hc Ha]%andb_prop.
    destruct (Ascii.eqb c sep); [discriminate |].
    rewrite (IH _ Ha). now rewrite append_snoc.
Qed.

(** The first field of [split]: the text up to the first separator. *)
Lemma split_go_head (sep : ascii) (cur s x : string) (l : list string) :
  split_go sep cur s = x :: l →
  ∃ a, lacks sep a = true ∧ x = cur +:+ a
       ∧ ((s = a ∧ l = [])
          ∨ ∃ r, s = a +:+ String sep r ∧ l = split_go sep EmptyString r).
Proof.
  revert cur; induction s as [|c s IH]; intros cur; simpl.
  - intros [= <- <-]. exists EmptyString.
    split; [reflexivity |]. split; [now rewrite append_nil | now left].
  - destruct (Ascii.eqb_spec c sep) as [-> | Hne].
    + intros [= <- <-]. exists EmptyString.
      split; [reflexivity |]. split; [now rewrite append_nil |].
      right. exists s. split; reflexivity.
    + intros Hs. apply IH in Hs as (a & Ha & -> & Hrest).
      exists (String c a). split.
      * simpl. rewrite Ha. destruct (Ascii.eqb_spec c sep); [contradiction |].
        reflexivity.
      * split; [apply append_snoc |].
        destruct Hrest as [[-> ->] | (r & -> & ->)]; [now left |].
        right. exists r. split; reflexivity.
Qed.

Lemma lookup_head (l : list string) (x : string) :
  l !! 0%nat = Some x → ∃ l', l = x :: l'.
Proof. destruct l as [|y l]; [discriminate |]. intros [= ->]. eauto. Qed.

(** The header texts in which [split(':')] finds three fields. *)
Lemma fields_text (s k signature encodedMessage : string) :
  fields s = (Some k, Some signature, Some encodedMessage)
  ↔ ∃ rest,
      s = k +:+ ":" +:+ signature +:+ ":" +:+ encodedMessage +:+ rest
      ∧ lacks ":" k = true ∧ lacks ":" signature = true
      ∧ lacks ":" encodedMessage = true
      ∧ (rest = "" ∨ ∃ more, rest = ":" +:+ more).
Proof.
  assert (Hcolon : ∀ x, ":" +:+ x = String ":" x) by reflexivity.
  unfold fields, split. split.
  - intros [= H0 H1 H2].
    apply lookup_head in H0 as (l1 & H0). rewrite H0 in H1, H2.
    apply split_go_head in H0 as (a & Ha & -> & [[-> ->] | (r1 & -> & ->)]);
      [discriminate |].
    change (EmptyString +:+ a) with a in *.
    change ((a :: split_go ":" "" r1) !! 1%nat)
      with (split_go ":" "" r1 !! 0%nat) in H1.
    change ((a :: split_go ":" "" r1) !! 2%nat)
      with (split_go ":" "" r1 !! 1%nat) in H2.
    apply lookup_head in H1 as (l2 & H1). rewrite H1 in H2.
    apply split_go_head in H1 as (b & Hb & -> & [[-> ->] | (r2 & -> & ->)]);
      [discriminate |].
    change (EmptyString +:+ b) with b in *.
    change ((b :: split_go ":" "" r2) !! 1%nat)
      with (split_go ":" "" r2 !! 0%nat) in H2.
    apply lookup_head in H2 as (l3 & H2).
    apply split_go_head in H2 as (c & Hc & -> & Hrest).
    change (EmptyString +:+ c) with c in *.
    destruct Hrest as [[-> ->] | (r3 & -> & ->)].
    + exists EmptyString. rewrite append_nil, !Hcolon.
      repeat split; try assumption. now left.
    + exists (String ":" r3). rewrite !Hcolon.
      repeat split; try assumption. right. now exists r3.
  - intros (rest & -> & Ha & Hb & Hc & Hrest). rewrite !Hcolon.
    rewrite (lacks_split_go_sep ":" EmptyString k) by assumption.
    rewrite (lacks_split_go_sep ":" EmptyString signature) by assumption.
    destruct Hrest as [-> | (more & ->)].
    + rewrite append_nil.
      rewrite (lacks_split_go ":" EmptyString encodedMessage) by assumption.
      reflexivity.
    + rewrite Hcolon.
      rewrite (lacks_split_go_sep ":" EmptyString encodedMessage)
        by assumption.
      reflexivity.
Qed.


Lemma truthy_str_ne (s : string) : truthy_str s = true ↔ s ≠ "".
Proof. destruct s; simpl; split; congruence. Qed.

Lemma header_string_text (h : option HeaderValue) (s : string) :
  header_string h = Some s ↔ h = Some (HString s) ∧ s ≠ "".
Proof.
  destruct h as [[t | l] |]; simpl;
    try (split; [discriminate | intros [[=] _]]).
  destruct t as [|c t]; simpl.
  - split; [discriminate | intros [[= <-] Hne]; now contradiction Hne].
  - split; [intros [= <-]; split; [reflexivity | discriminate] |].
    now intros [[= <-] _].
Qed.

Lemma startsWith_text (s : string) :
  startsWith s "Wallet " = true ↔ s = "Wallet " +:+ slice 7 s.
Proof.
  unfold startsWith. split.
  - destruct (strip_prefix "Wallet " s) as [r|] eqn:Hs; [| discriminate].
    intros _. apply strip_prefix_app in Hs. subst s. reflexivity.
  - intros ->. simpl. reflexivity.
Qed.

Section Parsing.
Context `{Primitives}.

(** [verified] in the terms of the handler: the tests that its code makes
    on the header all pass. *)
Lemma verified_parse (options : MiddlewareOptions) (now : Z) (req : Request)
    (k : string) :
  verified options now req k
  ↔ ∃ authHeader signature encodedMessage message,
      header_string
        (headers req
           !! toLowerCase (default "Authorization" (headerName options)))
      = Some authHeader
      ∧ startsWith authHeader "Wallet " = true
      ∧ fields (slice 7 authHeader)
        = (Some k, Some signature, Some encodedMessage)
      ∧ truthy_str k = true ∧ truthy_str signature = true
      ∧ truthy_str encodedMessage = true
      ∧ decodeURIComponent encodedMessage = Some message
      ∧ valid (verifyWalletSignature now
                 (verify_options options k signature message)) = true.
Proof.
  split.
  - intros (sg & en & rest & m & Hh & Hk & Hsg & Hen & Lk & Lsg & Len & Hrest
            & Hdec & Hv).
    exists ("Wallet " +:+ k +:+ ":" +:+ sg +:+ ":" +:+ en +:+ rest),
      sg, en, m.
    split; [apply header_string_text; split; [exact Hh | discriminate] |].
    split; [reflexivity |].
    split; [apply fields_text; exists rest; repeat split; assumption |].
    rewrite !truthy_str_ne. repeat split; assumption.
  - intros (h & sg & en & m & Hh & Hs & Hf & Hk & Hsg & Hen & Hdec & Hv).
    apply header_string_text in Hh as [Hh _].
    apply startsWith_text in Hs.
    apply fields_text in Hf as (rest & Hf & Lk & Lsg & Len & Hrest).
    rewrite truthy_str_ne in Hk, Hsg, Hen.
    exists sg, en, rest, m. rewrite Hh, Hs, Hf.
    repeat split; assumption.
Qed.

End Parsing.

Ltac unattached :=
  split; [simpl; auto |
  split; [reflexivity |
  split; [reflexivity |
  split; [| intros _; reflexivity]]]].

(** A request for which a branch of the handler does not attach a key is
    not a verified one. *)
Ltac refute_verified Hh :=
  let Hh' := fresh "Hh'" in
  let Hf' := fresh "Hf'" in
  intros ? (? & ? & ? & ? & Hh' & ? & Hf' & ? & ? & ? & ? & ?)%verified_parse;
  rewrite Hh in Hh'; [discriminate || (injection Hh' as <-)];
  try congruence;
  match goal with
  | Hf : fields _ = _ |- _ =>
      rewrite Hf in Hf'; injection Hf' as ? ? ?; subst; simpl in *;
      congruence
  end.

Section OptionalMiddleware.
Context `{Primitives}.

Lemma valid_echoes_key (now : Z) (options : VerifySignatureOptions) :
  valid (verifyWalletSignature now options) = true →
  resultPublicKey (verifyWalletSignature now options)
  = Some (publicKey options).
Proof.
  unfold verifyWalletSignature.
  repeat match goal with
         | |- context [if ?b then _ else _] => destruct b
         end; simpl; (discriminate || reflexivity).
Qed.

Lemma truthy_some (o : option string) :
  truthy o = true → ∃ s, o = Some s ∧ truthy_str s = true.
Proof. destruct o as [s|]; simpl; [eauto | discriminate]. Qed.

End OptionalMiddleware.

(** C10. For every request, the handler made by
    [createOptionalWalletAuthMiddleware] calls [next()], writes no
    response and calls no unauthorized or error handler, also when the
    header is well formed and the signature check fails. It never touches
    the headers; it sets [walletPublicKey] to the key of the header when
    verification succeeds, and leaves the request as it was otherwise. *)
Theorem optional_middleware_continues `{Primitives}
    (options : MiddlewareOptions) (now : Z) (req : Request) :
  let '(req', effects) :=
    createOptionalWalletAuthMiddleware options now req in
  In Next effects
  ∧ forallb (λ e, negb (responds e)) effects = true
  ∧ headers req' = headers req
  ∧ (∀ k, verified options now req k → walletPublicKey req' = Some k)
  ∧ ((¬ ∃ k, verified options now req k) → req' = req).
Proof.
  unfold createOptionalWalletAuthMiddleware.
  destruct (header_string _) as [authHeader|] eqn:Hh;
    [| unattached; refute_verified Hh].
  destruct (fields (slice 7 authHeader)) as [[pk sig] enc] eqn:Hf.
  destruct (startsWith authHeader "Wallet ") eqn:Hs; simpl negb; cbv iota;
    [| unattached; refute_verified Hh].
  destruct (truthy pk) eqn:Hpk; simpl negb; simpl orb; cbv iota;
    [| unattached; refute_verified Hh].
  destruct (truthy sig) eqn:Hsig; simpl negb; simpl orb; cbv iota;
    [| unattached; refute_verified Hh].
  destruct (truthy enc) eqn:Henc; simpl negb; cbv iota;
    [| unattached; refute_verified Hh].
  apply truthy_some in Hpk as (k0 & -> & Hk0).
  apply truthy_some in Hsig as (sig0 & -> & Hsig0).
  apply truthy_some in Henc as (enc0 & -> & Henc0).
  change (default "" (Some ?x)) with x.
  destruct (decodeURIComponent enc0) as [message|] eqn:Hdec;
    [| unattached; refute_verified Hh].
  destruct (valid _) eqn:Hv; [| unattached; refute_verified Hh].
  rewrite (valid_echoes_key _ _ Hv).
  split; [now left |]. split; [reflexivity |]. split; [reflexivity |]. split.
  - intros k (h & sg & en & m & Hh' & _ & Hf' & _)%verified_parse.
    rewrite Hh in Hh'. injection Hh' as <-.
    rewrite Hf in Hf'. injection Hf' as <- _ _. reflexivity.
  - intros Hnot. exfalso. apply Hnot. exists k0. apply verified_parse.
    exists authHeader, sig0, enc0, message. repeat split; assumption.
Qed.

(** The header of [signed_request] verifies under a signer that accepts. *)
Example signed_request_verified :
  @verified accept_all no_options (t0 + 1000) signed_request "7xKxabc".
Proof.
  exists "5sig",
    ("Acme%20wants%20you%20to%20sign%20in"
     +:+ "%20with%20your%20Solana%20account.%0A%0ANonce%3A%20"
     +:+ "82mvyr%0ATimestamp%3A%201700000000000"),
    "", (challenge t0).
  split; [reflexivity |].
  do 3 (split; [discriminate |]).
  do 3 (split; [reflexivity |]).
  split; [now left |].
  split; vm_compute; reflexivity.
Qed.

(** A verified header attaches its key. *)
Example optional_attaches_verified_key :
  @createOptionalWalletAuthMiddleware accept_all no_options (t0 + 1000)
    signed_request
  = ({| headers := headers signed_request;
        walletPublicKey := Some "7xKxabc" |}, [Next]).
Proof. vm_compute; reflexivity. Qed.

(** A well-formed header with a bad signature continues without a key,
    where the strict handler answers 401. *)
Example optional_continues_on_bad_signature :
  @createOptionalWalletAuthMiddleware reject_all no_options (t0 + 1000)
    signed_request
  = (signed_request, [Next])
  ∧ @createWalletAuthMiddleware reject_all no_options (t0 + 1000)
      signed_request
    = (signed_request, [Status 401; Json "Unauthorized: Invalid signature"]).
Proof. split; vm_compute; reflexivity. Qed.

(** A header with two fields only. *)
Example two_fields_rejected :
  @createWalletAuthMiddleware accept_all no_options (t0 + 1000) short_request
  = (short_request,
     [Status 401; Json "Unauthorized: Invalid authorization format"])
  ∧ @createOptionalWalletAuthMiddleware accept_all no_options (t0 + 1000)
      short_request
    = (short_request, [Next]).
Proof. split; vm_compute; reflexivity. Qed.

End MiddlewareProperties.

(** * Further properties *)

(** ** Session store and session manager *)

Section MoreSessions.
Import Session Props Inputs.

Lemma get_live (now : Z) (sessionId : string) (session : WalletSession)
    (sessions : gmap string WalletSession) :
  sessions !! sessionId = Some session →
  expired now session = false →
  getSession now sessionId sessions = (Return (Some session), sessions).
Proof.
  intros Hs He. unfold getSession; simpl. unfold MemorySessionStore.get.
  now rewrite Hs, He.
Qed.

Lemma get_expired (now : Z) (sessionId : string) (session : WalletSession)
    (sessions : gmap string WalletSession) :
  sessions !! sessionId = Some session →
  expired now session = true →
  getSession now sessionId sessions
  = (Return None, base.delete sessionId sessions).
Proof.
  intros Hs He. unfold getSession; simpl. unfold MemorySessionStore.get.
  now rewrite Hs, He.
Qed.

Lemma expired_later (now later : Z) (session : WalletSession) :
  now <= later → expired now session = true → expired later session = true.
Proof.
  unfold expired. destruct (expiresAt session) as [e|]; [| discriminate].
  intros Hle [Hnz Hlt]%andb_prop. rewrite Hnz. simpl.
  apply Z.ltb_lt in Hlt. apply Z.ltb_lt. lia.
Qed.

Lemma not_expired_until (later e : Z) (session : WalletSession) :
  expiresAt session = Some e → later <= e → expired later session = false.
Proof.
  intros He Hle. unfold expired. rewrite He.
  destruct (Z.ltb_spec e later); [lia | apply andb_false_r].
Qed.

(** X1. A session read back at any time up to its expiry is the one that
    [createSession] stored: same key, user id, metadata and creation
    time; sessions under other identifiers are not touched. *)
Theorem createSession_getSession
    (defaultTTL now later : Z) (sessionId publicKey' : string)
    (options : option CreateOptions) (sessions : gmap string WalletSession) :
  later <= now + ttl_or (options ≫= ttl) defaultTTL →
  ∃ session sessions',
    createSession defaultTTL now sessionId publicKey' options sessions
    = (Return sessionId, sessions')
    ∧ getSession later sessionId sessions' = (Return (Some session), sessions')
    ∧ publicKey session = publicKey'
    ∧ userId session = options ≫= opt_userId
    ∧ metadata session = options ≫= opt_metadata
    ∧ createdAt session = now
    ∧ ∀ other, other ≠ sessionId → sessions' !! other = sessions !! other.
Proof.
  intros Hle. eexists _, _. split; [reflexivity |]. split.
  - apply get_live; [apply lookup_insert_eq |].
    eapply not_expired_until; [reflexivity | exact Hle].
  - repeat split. intros other Hne. now apply lookup_insert_ne.
Qed.

Lemma createSession_getSession_witness :
  t0 + 5000 <= t0 + ttl_or (None ≫= ttl) DEFAULT_TTL
  ∧ ∃ session sessions',
      createSession DEFAULT_TTL t0 "ab12" "7xKxabc" None ∅
      = (Return "ab12", sessions')
      ∧ getSession (t0 + 5000) "ab12" sessions'
        = (Return (Some session), sessions')
      ∧ publicKey session = "7xKxabc"
      ∧ userId session = None ≫= opt_userId
      ∧ metadata session = None ≫= opt_metadata
      ∧ createdAt session = t0
      ∧ ∀ other, other ≠ "ab12" →
                 sessions' !! other = (∅ : gmap string WalletSession) !! other.
Proof.
  assert (H : t0 + 5000 <= t0 + ttl_or (None ≫= ttl) DEFAULT_TTL)
    by (vm_compute; discriminate).
  split; [exact H |].
  exact (createSession_getSession DEFAULT_TTL t0 (t0 + 5000) "ab12" "7xKxabc"
           None ∅ H).
Defined.

(** X2. After [deleteSession] the identifier reads as not found at every
    time, other sessions are kept, and deleting an identifier that is not
    stored changes nothing. *)
Theorem deleteSession_forgets
    (sessionId : string) (sessions : gmap string WalletSession) :
  ∃ sessions',
    deleteSession sessionId sessions = (Return tt, sessions')
    ∧ (∀ later, getSession later sessionId sessions' = (Return None, sessions'))
    ∧ (∀ other, other ≠ sessionId → sessions' !! other = sessions !! other)
    ∧ (sessions !! sessionId = None → sessions' = sessions)
    ∧ deleteSession sessionId sessions' = (Return tt, sessions').
Proof.
  exists (base.delete sessionId sessions). split; [reflexivity |].
  split; [intros later; apply getSession_absent, lookup_delete_eq |].
  split; [intros other Hne; now apply lookup_delete_ne |].
  split; [apply delete_id |].
  unfold deleteSession; simpl. unfold MemorySessionStore.delete.
  now rewrite delete_delete_eq.
Qed.

(** X3. [refreshSession] on a stored session that has not expired returns
    true and moves its expiry to [now + (ttl || defaultTTL)], also when it
    had no expiry; the key, user id, creation time and metadata stay, and
    so do the other sessions. *)
Theorem refreshSession_extends
    (defaultTTL now : Z) (sessionId : string) (ttl' : option Z)
    (session : WalletSession) (sessions : gmap string WalletSession) :
  sessions !! sessionId = Some session →
  expired now session = false →
  ∃ session' sessions',
    refreshSession defaultTTL now sessionId ttl' sessions
    = (Return true, sessions')
    ∧ sessions' !! sessionId = Some session'
    ∧ expiresAt session' = Some (now + ttl_or ttl' defaultTTL)
    ∧ publicKey session' = publicKey session
    ∧ userId session' = userId session
    ∧ createdAt session' = createdAt session
    ∧ metadata session' = metadata session
    ∧ ∀ other, other ≠ sessionId → sessions' !! other = sessions !! other.
Proof.
  intros Hs He. eexists _, _. split.
  - unfold refreshSession, bind.
    change (store_get now sessionId sessions)
      with (getSession now sessionId sessions).
    rewrite (get_live _ _ _ _ Hs He). reflexivity.
  - split; [apply lookup_insert_eq |]. repeat split.
    intros other Hne. now apply lookup_insert_ne.
Qed.

Lemma refreshSession_extends_witness :
  ({[ "s1" := session_at 500 ]} : gmap string WalletSession) !! "s1"
  = Some (session_at 500)
  ∧ expired 400 (session_at 500) = false
  ∧ ∃ session' sessions',
      refreshSession DEFAULT_TTL 400 "s1" (Some 1000)
        {[ "s1" := session_at 500 ]}
      = (Return true, sessions')
      ∧ sessions' !! "s1" = Some session'
      ∧ expiresAt session' = Some (400 + ttl_or (Some 1000) DEFAULT_TTL)
      ∧ publicKey session' = publicKey (session_at 500)
      ∧ userId session' = userId (session_at 500)
      ∧ createdAt session' = createdAt (session_at 500)
      ∧ metadata session' = metadata (session_at 500)
      ∧ ∀ other, other ≠ "s1" →
                 sessions' !! other
                 = ({[ "s1" := session_at 500 ]}
                      : gmap string WalletSession) !! other.
Proof.
  assert (H1 : ({[ "s1" := session_at 500 ]} : gmap string WalletSession)
               !! "s1" = Some (session_at 500)) by reflexivity.
  assert (H2 : expired 400 (session_at 500) = false) by reflexivity.
  split; [exact H1 |]. split; [exact H2 |].
  exact (refreshSession_extends DEFAULT_TTL 400 "s1" (Some 1000)
           (session_at 500) {[ "s1" := session_at 500 ]} H1 H2).
Defined.

(** X4. [refreshSession] returns false for an identifier that is not
    stored or whose session has expired; an expired session is removed,
    not revived. *)
Theorem refreshSession_missing_or_expired
    (defaultTTL now : Z) (sessionId : string) (ttl' : option Z)
    (sessions : gmap string WalletSession) :
  (sessions !! sessionId = None
   ∨ ∃ session,
       sessions !! sessionId = Some session ∧ expired now session = true) →
  refreshSession defaultTTL now sessionId ttl' sessions
  = (Return false, base.delete sessionId sessions).
Proof.
  intros Hs. unfold refreshSession, bind.
  change (store_get now sessionId sessions)
    with (getSession now sessionId sessions).
  destruct Hs as [Hs | (session & Hs & He)].
  - rewrite (getSession_absent _ _ _ Hs), delete_id by assumption. reflexivity.
  - rewrite (get_expired _ _ _ _ Hs He). reflexivity.
Qed.

Lemma refreshSession_missing_or_expired_witness :
  ({[ "s1" := session_at 500 ]} : gmap string WalletSession) !! "s1"
  = Some (session_at 500)
  ∧ expired 1000 (session_at 500) = true
  ∧ refreshSession DEFAULT_TTL 1000 "s1" None {[ "s1" := session_at 500 ]}
    = (Return false, base.delete "s1" {[ "s1" := session_at 500 ]}).
Proof.
  assert (H1 : ({[ "s1" := session_at 500 ]} : gmap string WalletSession)
               !! "s1" = Some (session_at 500)) by reflexivity.
  assert (H2 : expired 1000 (session_at 500) = true) by reflexivity.
  split; [exact H1 |]. split; [exact H2 |].
  exact (refreshSession_missing_or_expired DEFAULT_TTL 1000 "s1" None
           {[ "s1" := session_at 500 ]}
           (or_intror (ex_intro _ (session_at 500) (conj H1 H2)))).
Defined.

(** [cleanup] removes exactly the sessions that have expired at the time
    of the sweep. *)
Lemma cleanup_removes_expired
    (now : Z) (sessionId : string) (session : WalletSession)
    (sessions : gmap string WalletSession) :
  (MemorySessionStore.cleanup now sessions).2 !! sessionId = Some session
  ↔ sessions !! sessionId = Some session ∧ expired now session = false.
Proof. unfold MemorySessionStore.cleanup; simpl. apply map_lookup_filter_Some. Qed.

(** X5. The sweep is advisory: at the time of the sweep or later, whether
    it ran or not, [getSession] returns the same. *)
Theorem cleanup_is_advisory
    (now later : Z) (sessionId : string)
    (sessions : gmap string WalletSession) :
  now <= later →
  (getSession later sessionId (MemorySessionStore.cleanup now sessions).2).1
  = (getSession later sessionId sessions).1.
Proof.
  intros Hle. unfold getSession; simpl. unfold MemorySessionStore.get.
  destruct (sessions !! sessionId) as [session|] eqn:Hs.
  - destruct (expired now session) eqn:He.
    + rewrite (expired_later _ _ _ Hle He).
      assert (Hgone : filter (λ kv, expired now kv.2 = false) sessions
                      !! sessionId = None).
      { apply map_lookup_filter_None. right. intros x Hx.
        rewrite Hs in Hx. injection Hx as <-. simpl. congruence. }
      now rewrite Hgone.
    + assert (Hkept : filter (λ kv, expired now kv.2 = false) sessions
                      !! sessionId = Some session)
        by (apply map_lookup_filter_Some; auto).
      rewrite Hkept. destruct (expired later session); reflexivity.
  - assert (Hgone : filter (λ kv, expired now kv.2 = false) sessions
                    !! sessionId = None)
      by (apply map_lookup_filter_None; left; exact Hs).
    now rewrite Hgone.
Qed.

Lemma cleanup_is_advisory_witness :
  1000 <= 2000
  ∧ (getSession 2000 "s1"
       (MemorySessionStore.cleanup 1000 {[ "s1" := session_at 500 ]}).2).1
    = (getSession 2000 "s1" {[ "s1" := session_at 500 ]}).1.
Proof.
  assert (H : 1000 <= 2000) by lia.
  split; [exact H |].
  exact (cleanup_is_advisory 1000 2000 "s1" {[ "s1" := session_at 500 ]} H).
Defined.

End MoreSessions.

Section SessionIds.
Import ServerMore.

Lemma toString16_digit (n : nat) :
  (n < 16)%nat →
  ∃ c, toString16 n = String c EmptyString ∧ is_hex c = true.
Proof.
  intros Hn.
  do 16 (destruct n as [|n]; [eexists; split; reflexivity |]). lia.
Qed.

Lemma concat_digits (draws : nat → nat) (indices : list nat) :
  (∀ i, In i indices → (draws i < 16)%nat) →
  String.length
    (String.concat EmptyString (map (λ i, toString16 (draws i)) indices))
  = length indices
  ∧ all_chars is_hex
      (String.concat EmptyString (map (λ i, toString16 (draws i)) indices))
    = true.
Proof.
  induction indices as [|i indices IH]; intros Hd; [split; reflexivity |].
  destruct (toString16_digit (draws i)) as (c & Hc & Hhex);
    [apply Hd; now left |].
  destruct IH as [Hlen Hall]; [intros j Hj; apply Hd; now right |].
  destruct indices as [|j indices].
  - simpl. rewrite Hc. simpl. now rewrite Hhex.
  - change (String.concat EmptyString
              (map (λ i, toString16 (draws i)) (i :: j :: indices)))
      with (toString16 (draws i) +:+ EmptyString
            +:+ String.concat EmptyString
                  (map (λ i, toString16 (draws i)) (j :: indices))).
    rewrite Hc.
    change (String c EmptyString +:+ EmptyString +:+ ?r) with (String c r).
    split.
    + change (String.length (String c ?r)) with (S (String.length r)).
      rewrite Hlen. reflexivity.
    + change (all_chars is_hex (String c ?r))
        with (is_hex c && all_chars is_hex r).
      now rewrite Hhex, Hall.
Qed.

(** X6. Whatever the random draws, a generated session identifier has
    exactly 32 characters, all of them in [0-9a-f]. *)
Theorem generateSessionId_format (draws : nat → nat) :
  (∀ i, (i < 32)%nat → (draws i < 16)%nat) →
  String.length (generateSessionId draws) = 32%nat
  ∧ all_chars is_hex (generateSessionId draws) = true.
Proof.
  intros Hd. apply (concat_digits draws (seq 0 32)).
  intros i Hi. apply Hd. apply in_seq in Hi. lia.
Qed.

Lemma generateSessionId_format_witness :
  (∀ i, (i < 32)%nat → ((λ i, (7 * i + 3) mod 16)%nat i < 16)%nat)
  ∧ String.length (generateSessionId (λ i, (7 * i + 3) mod 16)%nat) = 32%nat
  ∧ all_chars is_hex (generateSessionId (λ i, (7 * i + 3) mod 16)%nat) = true.
Proof.
  assert (H : ∀ i, (i < 32)%nat → ((λ i, (7 * i + 3) mod 16)%nat i < 16)%nat).
  { intros i _. apply Nat.mod_upper_bound. lia. }
  split; [exact H |].
  exact (generateSessionId_format (λ i, (7 * i + 3) mod 16)%nat H).
Defined.

Example generateSessionId_sample :
  generateSessionId (λ i, (7 * i + 3) mod 16)%nat
  = "3a18f6d4b2907e5c3a18f6d4b2907e5c".
Proof. vm_compute; reflexivity. Qed.

End SessionIds.

(** ** User linking, the remaining paths *)

Section MoreUsers.
Import Users Run Props MoreProps Inputs.

Ltac run_manager :=
  unfold linkOrCreateUser, unlinkWallet, getUserByPublicKey, isWalletLinked,
    bind, ret, throw; simpl;
  unfold MemoryUserStore.findByPublicKey, MemoryUserStore.findByUserId,
    MemoryUserStore.findByEmail.

Lemma String_of_number_inj (a b : Z) :
  String_of_number a = String_of_number b → a = b.
Proof.
  unfold String_of_number. intros Heq.
  apply DecimalZ.to_int_inj.
  assert (Hs : Some (Z.to_int a) = Some (Z.to_int b))
    by (rewrite <- !NilEmpty.isi; now rewrite Heq).
  now injection Hs.
Qed.

(** What [update] with the linking data does to a record without a
    wallet. *)
Lemma update_links (s : MemoryUserStore.State) (now : Z)
    (k userId : string) (user : UserRecord) (metadata' : option Metadata) :
  MemoryUserStore.users s !! userId = Some user →
  truthy (walletPublicKey user) = false →
  truthy_str k = true →
  MemoryUserStore.update userId (link_data now k user metadata') s
  = (Return
       {| id := id user; walletPublicKey := Some k; email := email user;
          walletConnectedAt := Some now;
          metadata := Some (spread (metadata user) metadata') |},
     {| MemoryUserStore.users :=
          <[userId :=
              {| id := id user; walletPublicKey := Some k;
                 email := email user; walletConnectedAt := Some now;
                 metadata := Some (spread (metadata user) metadata') |}]>
            (MemoryUserStore.users s);
        MemoryUserStore.emailIndex := MemoryUserStore.emailIndex s;
        MemoryUserStore.walletIndex :=
          <[k := userId]> (MemoryUserStore.walletIndex s);
        MemoryUserStore.nextId := MemoryUserStore.nextId s |}).
Proof.
  intros Hu Hw Hk. unfold MemoryUserStore.update. rewrite Hu. simpl.
  rewrite Hk. destruct (walletPublicKey user) as [w|]; simpl in *;
    [rewrite Hw |]; reflexivity.
Qed.

Lemma spread_lookup (old new : option Metadata) (key : string) :
  spread old new !! key
  = match default ∅ new !! key with
    | Some v => Some v
    | None => default ∅ old !! key
    end.
Proof.
  unfold spread. rewrite lookup_union.
  destruct (default ∅ new !! key), (default ∅ old !! key); reflexivity.
Qed.

(** X7. With a public key that the store does not know, no existing user
    id and no email of a stored user, [linkOrCreateUser] creates a record
    under the next id, holding the key, the email and the metadata given
    and [walletConnectedAt = now]; the record is then found by its key, by
    its id and by its email, and no other record changes. *)
Theorem linkOrCreateUser_creates
    (s : MemoryUserStore.State) (now : Z) (options : UserLinkOptions) :
  truthy_str (publicKey options) = true →
  MemoryUserStore.via_index (MemoryUserStore.walletIndex s)
    (publicKey options) s = None →
  truthy (existingUserId options) = false →
  (truthy (opt_email options) = false
   ∨ MemoryUserStore.via_index (MemoryUserStore.emailIndex s)
       (default EmptyString (opt_email options)) s = None) →
  ∃ u s',
    linkOrCreateUser now options s = (Return u, s')
    ∧ id u = String_of_number (MemoryUserStore.nextId s)
    ∧ walletPublicKey u = Some (publicKey options)
    ∧ email u = opt_email options
    ∧ walletConnectedAt u = Some now
    ∧ metadata u = Some (default ∅ (opt_metadata options))
    ∧ getUserByPublicKey (publicKey options) s' = (Return (Some u), s')
    ∧ MemoryUserStore.findByUserId (id u) s' = (Return (Some u), s')
    ∧ (truthy (opt_email options) = true →
       MemoryUserStore.findByEmail (default EmptyString (opt_email options)) s'
       = (Return (Some u), s'))
    ∧ MemoryUserStore.nextId s' = MemoryUserStore.nextId s + 1
    ∧ ∀ j, j ≠ id u →
           MemoryUserStore.users s' !! j = MemoryUserStore.users s !! j.
Proof.
  intros Hk Hfind Hno Hmail.
  assert (Hrun : linkOrCreateUser now options s
                 = MemoryUserStore.create (create_data now options) s).
  { run_manager. rewrite Hfind, Hno.
    destruct Hmail as [-> | Hm]; [reflexivity |].
    destruct (truthy (opt_email options)); [| reflexivity].
    now rewrite Hm. }
  rewrite Hrun. eexists _, _. split; [reflexivity |].
  simpl. repeat split.
  - run_manager. unfold MemoryUserStore.via_index; simpl.
    rewrite Hk, lookup_insert_eq, String_of_number_truthy, lookup_insert_eq.
    reflexivity.
  - unfold MemoryUserStore.findByUserId; simpl.
    now rewrite lookup_insert_eq.
  - intros He. unfold MemoryUserStore.findByEmail, MemoryUserStore.via_index.
    simpl. destruct (opt_email options) as [e|]; [| discriminate].
    simpl in *. rewrite He, lookup_insert_eq, String_of_number_truthy,
      lookup_insert_eq. reflexivity.
  - intros j Hj. now apply lookup_insert_ne.
Qed.

(** X8. With an unknown public key and the id of a stored user that has
    no wallet, [linkOrCreateUser] links the key to that user: the record
    keeps its id and email, gets the key and [walletConnectedAt = now],
    and its metadata is the old one overridden key by key by the new one;
    the record is then found by the key, and no id is issued. *)
Theorem linkOrCreateUser_links_existing
    (s : MemoryUserStore.State) (now : Z) (options : UserLinkOptions)
    (userId : string) (user : UserRecord) :
  truthy_str (publicKey options) = true →
  MemoryUserStore.via_index (MemoryUserStore.walletIndex s)
    (publicKey options) s = None →
  existingUserId options = Some userId →
  truthy_str userId = true →
  MemoryUserStore.users s !! userId = Some user →
  truthy (walletPublicKey user) = false →
  ∃ u s' m,
    linkOrCreateUser now options s = (Return u, s')
    ∧ id u = id user ∧ email u = email user
    ∧ walletPublicKey u = Some (publicKey options)
    ∧ walletConnectedAt u = Some now
    ∧ metadata u = Some m
    ∧ (∀ key,
         m !! key
         = match default ∅ (opt_metadata options) !! key with
           | Some v => Some v
           | None => default ∅ (metadata user) !! key
           end)
    ∧ MemoryUserStore.users s' !! userId = Some u
    ∧ getUserByPublicKey (publicKey options) s' = (Return (Some u), s')
    ∧ MemoryUserStore.nextId s' = MemoryUserStore.nextId s
    ∧ ∀ j, j ≠ userId →
           MemoryUserStore.users s' !! j = MemoryUserStore.users s !! j.
Proof.
  intros Hk Hfind Hid Htid Hu Hw.
  assert (Hrun : linkOrCreateUser now options s
                 = MemoryUserStore.update userId
                     (link_data now (publicKey options) user
                        (opt_metadata options)) s).
  { run_manager. rewrite Hfind, Hid. simpl. rewrite Htid, Hu, Hw.
    reflexivity. }
  rewrite Hrun, (update_links _ _ _ _ _ _ Hu Hw Hk).
  eexists _, _, _. split; [reflexivity |]. simpl.
  do 5 (split; [reflexivity |]).
  split; [intros key; apply spread_lookup |].
  split; [apply lookup_insert_eq |].
  split.
  - run_manager. unfold MemoryUserStore.via_index; simpl.
    now rewrite lookup_insert_eq, Htid, lookup_insert_eq.
  - split; [reflexivity |]. intros j Hj. now apply lookup_insert_ne.
Qed.

(** X9. With an unknown public key and the email of a stored user that
    has no wallet (and no existing user id), [linkOrCreateUser] links the
    key to the user of that email, as it does with a user id. *)
Theorem linkOrCreateUser_links_by_email
    (s : MemoryUserStore.State) (now : Z) (options : UserLinkOptions)
    (email' : string) (user : UserRecord) :
  truthy_str (publicKey options) = true →
  MemoryUserStore.via_index (MemoryUserStore.walletIndex s)
    (publicKey options) s = None →
  truthy (existingUserId options) = false →
  opt_email options = Some email' →
  truthy_str email' = true →
  MemoryUserStore.via_index (MemoryUserStore.emailIndex s) email' s
  = Some user →
  MemoryUserStore.users s !! id user = Some user →
  truthy_str (id user) = true →
  truthy (walletPublicKey user) = false →
  ∃ u s',
    linkOrCreateUser now options s = (Return u, s')
    ∧ id u = id user ∧ email u = email user
    ∧ walletPublicKey u = Some (publicKey options)
    ∧ walletConnectedAt u = Some now
    ∧ MemoryUserStore.users s' !! id user = Some u
    ∧ getUserByPublicKey (publicKey options) s' = (Return (Some u), s')
    ∧ MemoryUserStore.nextId s' = MemoryUserStore.nextId s.
Proof.
  intros Hk Hfind Hno Hmail Hte Hby Hu Htid Hw.
  assert (Hrun : linkOrCreateUser now options s
                 = MemoryUserStore.update (id user)
                     (link_data now (publicKey options) user
                        (opt_metadata options)) s).
  { run_manager. rewrite Hfind, Hno, Hmail. simpl. rewrite Hte, Hby, Hw.
    reflexivity. }
  rewrite Hrun, (update_links _ _ _ _ _ _ Hu Hw Hk).
  eexists _, _. split; [reflexivity |]. simpl.
  do 4 (split; [reflexivity |]).
  split; [apply lookup_insert_eq |].
  split; [| reflexivity].
  run_manager. unfold MemoryUserStore.via_index; simpl.
  now rewrite lookup_insert_eq, Htid, lookup_insert_eq.
Qed.

(** X10. The three refusals of [linkOrCreateUser], each leaving the store
    as it was: an existing user id that is not stored ("User not found"),
    an existing user that has a wallet ("User already has a linked
    wallet"), and an email whose user has a wallet ("Email already has a
    linked wallet"). *)
Theorem linkOrCreateUser_refuses
    (s : MemoryUserStore.State) (now : Z) (options : UserLinkOptions)
    (e : Error) :
  MemoryUserStore.via_index (MemoryUserStore.walletIndex s)
    (publicKey options) s = None →
  ((∃ userId,
      existingUserId options = Some userId ∧ truthy_str userId = true
      ∧ MemoryUserStore.users s !! userId = None
      ∧ e = JsError "User not found")
   ∨ (∃ userId user,
        existingUserId options = Some userId ∧ truthy_str userId = true
        ∧ MemoryUserStore.users s !! userId = Some user
        ∧ truthy (walletPublicKey user) = true
        ∧ e = JsError "User already has a linked wallet")
   ∨ (∃ email' user,
        truthy (existingUserId options) = false
        ∧ opt_email options = Some email' ∧ truthy_str email' = true
        ∧ MemoryUserStore.via_index (MemoryUserStore.emailIndex s) email' s
          = Some user
        ∧ truthy (walletPublicKey user) = true
        ∧ e = JsError "Email already has a linked wallet")) →
  linkOrCreateUser now options s = (Throw e, s).
Proof.
  intros Hfind Hcase. run_manager. rewrite Hfind.
  destruct Hcase as
    [(userId & Hid & Ht & Hu & ->)
    |[(userId & user & Hid & Ht & Hu & Hw & ->)
     |(email' & user & Hno & Hmail & Ht & Hby & Hw & ->)]].
  - rewrite Hid; simpl. now rewrite Ht, Hu.
  - rewrite Hid; simpl. now rewrite Ht, Hu, Hw.
  - rewrite Hno, Hmail; simpl. now rewrite Ht, Hby, Hw.
Qed.

(** X11. [unlinkWallet] of an id that is not stored fails with "User not
    found" and changes nothing; of a stored id it changes that record
    only, and only its wallet fields: id, email and metadata stay, as do
    the other records, the email index and the next id. *)
Theorem unlinkWallet_touches_wallet_only
    (s : MemoryUserStore.State) (userId : string) :
  match MemoryUserStore.users s !! userId with
  | None => unlinkWallet userId s = (Throw (JsError "User not found"), s)
  | Some user =>
      ∃ u s',
        unlinkWallet userId s = (Return u, s')
        ∧ id u = id user ∧ email u = email user
        ∧ metadata u = metadata user
        ∧ MemoryUserStore.users s' !! userId = Some u
        ∧ (∀ j, j ≠ userId →
                MemoryUserStore.users s' !! j = MemoryUserStore.users s !! j)
        ∧ MemoryUserStore.emailIndex s' = MemoryUserStore.emailIndex s
        ∧ MemoryUserStore.nextId s' = MemoryUserStore.nextId s
  end.
Proof.
  destruct (MemoryUserStore.users s !! userId) as [user|] eqn:Hu.
  - run_manager. rewrite Hu. unfold MemoryUserStore.update. rewrite Hu.
    eexists _, _. split; [reflexivity |]. simpl.
    do 3 (split; [reflexivity |]).
    split; [apply lookup_insert_eq |].
    split; [intros j Hj; now apply lookup_insert_ne |]. split; reflexivity.
  - run_manager. now rewrite Hu.
Qed.

End MoreUsers.

Section UserIds.
Import Users Run Props MoreProps Inputs MoreInputs.

Ltac run_manager :=
  unfold linkOrCreateUser, unlinkWallet, getUserByPublicKey, isWalletLinked,
    bind, ret, throw; simpl;
  unfold MemoryUserStore.findByPublicKey, MemoryUserStore.findByUserId,
    MemoryUserStore.findByEmail.

Lemma counted_empty : counted MemoryUserStore.empty.
Proof.
  split; [simpl; lia |]. intros i. simpl. rewrite lookup_empty. split.
  - intros [? [=]].
  - intros (n & Hn & _). simpl in Hn. lia.
Qed.

Lemma counted_create (s : MemoryUserStore.State) (now : Z)
    (options : UserLinkOptions) :
  counted s → counted (MemoryUserStore.create (create_data now options) s).2.
Proof.
  intros [Hpos Hkeys]. split; [simpl; lia |]. intros i. simpl.
  rewrite lookup_insert_is_Some, Hkeys. unfold issued; simpl. split.
  - intros [<- | (_ & n & Hn & ->)].
    + exists (MemoryUserStore.nextId s). split; [lia | reflexivity].
    + exists n. split; [lia | reflexivity].
  - intros (n & Hn & ->).
    destruct (decide (n = MemoryUserStore.nextId s)) as [-> | Hne];
      [now left | right].
    split; [intros Heq; apply String_of_number_inj in Heq; congruence |].
    exists n. split; [lia | reflexivity].
Qed.

Lemma counted_update (s : MemoryUserStore.State) (userId : string)
    (data : PartialUser) :
  counted s → counted (MemoryUserStore.update userId data s).2.
Proof.
  intros [Hpos Hkeys]. unfold MemoryUserStore.update.
  destruct (MemoryUserStore.users s !! userId) as [user|] eqn:Hu;
    [| now split].
  split; [exact Hpos |]. intros i. simpl.
  rewrite lookup_insert_is_Some, <- (Hkeys i). split.
  - intros [<- | [_ Hi]]; [now rewrite Hu | exact Hi].
  - intros Hi. destruct (decide (userId = i)); [now left | now right].
Qed.

Lemma counted_step (s : MemoryUserStore.State) (op : Op) :
  counted s → counted (step s op).
Proof.
  intros Hc. destruct op as [now options | userId | k | k]; simpl;
    try exact Hc.
  - run_manager.
    destruct (MemoryUserStore.via_index _ (publicKey options) s);
      [exact Hc |].
    destruct (truthy (existingUserId options)).
    + destruct (MemoryUserStore.users s !! _) as [user|]; [| exact Hc].
      destruct (truthy (walletPublicKey user)); [exact Hc |].
      now apply counted_update.
    + destruct (truthy (opt_email options)); [| now apply counted_create].
      destruct (MemoryUserStore.via_index (MemoryUserStore.emailIndex s) _ s)
        as [user|]; [| now apply counted_create].
      destruct (truthy (walletPublicKey user)); [exact Hc |].
      now apply counted_update.
  - run_manager.
    destruct (MemoryUserStore.users s !! userId); [| exact Hc].
    now apply (counted_update s userId unlink_data).
Qed.

Lemma counted_fold (ops : list Op) (s : MemoryUserStore.State) :
  counted s → counted (fold_left step ops s).
Proof.
  revert s; induction ops as [|op ops IH]; intros s Hc; [exact Hc |].
  simpl. apply IH, counted_step, Hc.
Qed.

(** X12. After any sequence of manager operations on an empty in-memory
    store, the stored records are exactly those of the ids ["1"] to
    [nextId - 1]: no record is ever removed, and the id that the next
    [create] issues is not in use, so creating never overwrites a
    record. *)
Theorem issued_ids_are_fresh (ops : list Op) :
  counted (run ops)
  ∧ MemoryUserStore.users (run ops)
      !! String_of_number (MemoryUserStore.nextId (run ops)) = None.
Proof.
  assert (Hc : counted (run ops)) by apply counted_fold, counted_empty.
  split; [exact Hc |]. destruct Hc as [_ Hkeys].
  apply eq_None_not_Some. intros Hsome.
  apply Hkeys in Hsome as (n & Hn & Heq).
  apply String_of_number_inj in Heq. lia.
Qed.

Lemma spent_resolves (k userId : string) (s : MemoryUserStore.State) :
  truthy_str userId = true → spent k userId s →
  MemoryUserStore.via_index (MemoryUserStore.walletIndex s) k s
  = MemoryUserStore.users s !! userId.
Proof.
  intros Hid (Hidx & _). unfold MemoryUserStore.via_index.
  now rewrite Hidx, Hid.
Qed.

Lemma spent_create (k userId : string) (s : MemoryUserStore.State)
    (now : Z) (options : UserLinkOptions) :
  publicKey options ≠ k → spent k userId s →
  spent k userId (MemoryUserStore.create (create_data now options) s).2.
Proof.
  intros Hne (Hidx & Hu & Hfree). unfold spent. simpl. split; [| split].
  - destruct (truthy_str (publicKey options)); [| exact Hidx].
    now rewrite lookup_insert_ne.
  - apply lookup_insert_is_Some.
    destruct (decide (String_of_number (MemoryUserStore.nextId s) = userId));
      [now left | now right].
  - intros j v.
    destruct (decide (String_of_number (MemoryUserStore.nextId s) = j))
      as [<- | Hj].
    + rewrite lookup_insert_eq. intros [= <-]. simpl. congruence.
    + rewrite lookup_insert_ne by assumption. apply Hfree.
Qed.

Lemma drop_old_other (old : option string) (index : gmap string string)
    (k : string) :
  old ≠ Some k → MemoryUserStore.drop_old old index !! k = index !! k.
Proof.
  intros Hne. destruct old as [o|]; simpl; [| reflexivity].
  destruct (truthy_str o); [| reflexivity].
  apply lookup_delete_ne. congruence.
Qed.

(** [update] with the linking data for another key. *)
Lemma spent_link (k userId : string) (s : MemoryUserStore.State)
    (now : Z) (k' i : string) (user : UserRecord)
    (metadata' : option Metadata) :
  k' ≠ k → spent k userId s →
  spent k userId
    (MemoryUserStore.update i (link_data now k' user metadata') s).2.
Proof.
  intros Hne (Hidx & Hu & Hfree). unfold MemoryUserStore.update.
  destruct (MemoryUserStore.users s !! i) as [user'|] eqn:Hi;
    [| now repeat split].
  unfold spent. simpl. split; [| split].
  - destruct (truthy_str k');
      [rewrite lookup_insert_ne by assumption |];
      (rewrite drop_old_other; [exact Hidx | exact (Hfree i user' Hi)]).
  - apply lookup_insert_is_Some.
    destruct (decide (i = userId)); [now left | now right].
  - intros j v. destruct (decide (i = j)) as [<- | Hj].
    + rewrite lookup_insert_eq. intros [= <-]. simpl. congruence.
    + rewrite lookup_insert_ne by assumption. apply Hfree.
Qed.

Lemma spent_unlink (k userId i : string) (s : MemoryUserStore.State) :
  spent k userId s →
  spent k userId (MemoryUserStore.update i unlink_data s).2.
Proof.
  intros (Hidx & Hu & Hfree). unfold MemoryUserStore.update.
  destruct (MemoryUserStore.users s !! i) as [user|] eqn:Hi;
    [| now repeat split].
  unfold spent. simpl. split; [exact Hidx |]. split.
  - apply lookup_insert_is_Some.
    destruct (decide (i = userId)); [now left | now right].
  - intros j v. destruct (decide (i = j)) as [<- | Hj].
    + rewrite lookup_insert_eq. intros [= <-]. discriminate.
    + rewrite lookup_insert_ne by assumption. apply Hfree.
Qed.

Lemma spent_step (k userId : string) (s : MemoryUserStore.State) (op : Op) :
  truthy_str userId = true → spent k userId s → spent k userId (step s op).
Proof.
  intros Hid Hs. destruct op as [now options | i | k' | k']; simpl;
    try exact Hs.
  - run_manager.
    destruct (MemoryUserStore.via_index _ (publicKey options) s)
      as [existing|] eqn:Hfind; [exact Hs |].
    assert (Hne : publicKey options ≠ k).
    { intros Heq. rewrite Heq, (spent_resolves k userId s Hid Hs) in Hfind.
      destruct Hs as (_ & [? Hu] & _). congruence. }
    destruct (truthy (existingUserId options)).
    + destruct (MemoryUserStore.users s !! _) as [user|] eqn:Hu;
        [| exact Hs].
      destruct (truthy (walletPublicKey user)) eqn:Hw; [exact Hs |].
      now apply spent_link.
    + destruct (truthy (opt_email options)); [| now apply spent_create].
      destruct (MemoryUserStore.via_index (MemoryUserStore.emailIndex s) _ s)
        as [user|] eqn:Hmail; [| now apply spent_create].
      destruct (truthy (walletPublicKey user)) eqn:Hw; [exact Hs |].
      now apply spent_link.
  - run_manager.
    destruct (MemoryUserStore.users s !! i); [| exact Hs].
    now apply (spent_unlink k userId i s).
Qed.

Lemma spent_fold (k userId : string) (ops : list Op)
    (s : MemoryUserStore.State) :
  truthy_str userId = true → spent k userId s →
  spent k userId (fold_left step ops s).
Proof.
  intros Hid. revert s; induction ops as [|op ops IH]; intros s Hs;
    [exact Hs |].
  simpl. apply IH, spent_step; assumption.
Qed.

(** X13. Once [unlinkWallet] has unlinked the only user that held the
    key [k] (a user with a non-empty id, under which the wallet index
    files [k]), the key is spent: after any further manager operations, no
    record holds [k], and [linkOrCreateUser] with [k], whatever its other
    options, returns the record then stored for that user and changes
    nothing. So [k] cannot be linked again, to this user or another. *)
Theorem unlinked_key_cannot_be_relinked
    (s : MemoryUserStore.State) (userId k : string) (u : UserRecord)
    (ops : list Op) (now : Z) (options : UserLinkOptions) :
  MemoryUserStore.users s !! userId = Some u →
  walletPublicKey u = Some k →
  MemoryUserStore.walletIndex s !! k = Some userId →
  truthy_str userId = true →
  held_once k s →
  publicKey options = k →
  ∃ u0 s0,
    unlinkWallet userId s = (Return u0, s0)
    ∧ walletPublicKey u0 = None
    ∧ ∃ u',
        MemoryUserStore.users (fold_left step ops s0) !! userId = Some u'
        ∧ linkOrCreateUser now options (fold_left step ops s0)
          = (Return u', fold_left step ops s0)
        ∧ ∀ j v, MemoryUserStore.users (fold_left step ops s0) !! j = Some v →
                 walletPublicKey v ≠ Some k.
Proof.
  intros Hu Hw Hidx Hid Honce <-. run_manager. rewrite Hu.
  unfold MemoryUserStore.update. rewrite Hu. simpl.
  eexists _, _. split; [reflexivity |]. split; [reflexivity |].
  match goal with |- context [fold_left step ops ?s0] =>
    assert (Hs : spent (publicKey options) userId (fold_left step ops s0))
  end.
  { apply spent_fold; [exact Hid |]. unfold spent. simpl.
    split; [exact Hidx |]. split; [rewrite lookup_insert_eq; eauto |].
    intros j v. destruct (decide (userId = j)) as [<- | Hj].
    - rewrite lookup_insert_eq. intros [= <-]. discriminate.
    - rewrite lookup_insert_ne by assumption. intros Hv Hwv.
      apply Hj. exact (Honce userId j u v Hu Hv Hw Hwv). }
  pose proof (spent_resolves _ _ _ Hid Hs) as Hfind.
  destruct Hs as (_ & [u' Hu'] & Hfree).
  exists u'. split; [exact Hu' |]. split; [| exact Hfree].
  rewrite Hfind, Hu'. reflexivity.
Qed.

Lemma linked_held_once : held_once "K" linked.
Proof.
  intros i j u v Hu Hv _ _.
  change (MemoryUserStore.users linked)
    with (<["1" := record (Some "K") (Some 10)]>
            (∅ : gmap string UserRecord)) in Hu, Hv.
  apply lookup_insert_Some in Hu as [[<- _] | [_ Hu]];
    [| now rewrite lookup_empty in Hu].
  apply lookup_insert_Some in Hv as [[<- _] | [_ Hv]];
    [reflexivity | now rewrite lookup_empty in Hv].
Qed.

Lemma unlinked_key_cannot_be_relinked_witness :
  MemoryUserStore.users linked !! "1" = Some (record (Some "K") (Some 10))
  ∧ MemoryUserStore.walletIndex linked !! "K" = Some "1"
  ∧ held_once "K" linked
  ∧ ∃ u0 s0,
      unlinkWallet "1" linked = (Return u0, s0)
      ∧ walletPublicKey u0 = None
      ∧ ∃ u',
          MemoryUserStore.users
            (fold_left step [LinkOrCreateUser 15 (to_user "L" "1")] s0)
            !! "1" = Some u'
          ∧ linkOrCreateUser 20 (to_user "K" "2")
              (fold_left step [LinkOrCreateUser 15 (to_user "L" "1")] s0)
            = (Return u',
               fold_left step [LinkOrCreateUser 15 (to_user "L" "1")] s0)
          ∧ ∀ j v,
              MemoryUserStore.users
                (fold_left step [LinkOrCreateUser 15 (to_user "L" "1")] s0)
                !! j = Some v →
              walletPublicKey v ≠ Some "K".
Proof.
  assert (H1 : MemoryUserStore.users linked !! "1"
               = Some (record (Some "K") (Some 10))) by reflexivity.
  assert (H2 : MemoryUserStore.walletIndex linked !! "K" = Some "1")
    by reflexivity.
  split; [exact H1 |]. split; [exact H2 |].
  split; [exact linked_held_once |].
  exact (unlinked_key_cannot_be_relinked linked "1" "K"
           (record (Some "K") (Some 10))
           [LinkOrCreateUser 15 (to_user "L" "1")] 20 (to_user "K" "2")
           H1 eq_refl H2 eq_refl linked_held_once eq_refl).
Defined.

(** After the key is unlinked and another key linked to the same user,
    a call with the first key returns the record that holds the second. *)
Example spent_key_returns_current_record :
  linkOrCreateUser 20 (only_key "K")
    (run [LinkOrCreateUser 10 (only_key "K"); UnlinkWallet "1";
          LinkOrCreateUser 15 (to_user "L" "1")])
  = (Return (record (Some "L") (Some 15)),
     run [LinkOrCreateUser 10 (only_key "K"); UnlinkWallet "1";
          LinkOrCreateUser 15 (to_user "L" "1")]).
Proof. vm_compute; reflexivity. Qed.

Lemma linkOrCreateUser_creates_witness :
  truthy_str (publicKey (only_key "K")) = true
  ∧ MemoryUserStore.via_index
      (MemoryUserStore.walletIndex MemoryUserStore.empty)
      (publicKey (only_key "K")) MemoryUserStore.empty = None
  ∧ ∃ u s',
      linkOrCreateUser 10 (only_key "K") MemoryUserStore.empty = (Return u, s')
      ∧ id u = String_of_number (MemoryUserStore.nextId MemoryUserStore.empty)
      ∧ walletPublicKey u = Some (publicKey (only_key "K"))
      ∧ email u = opt_email (only_key "K")
      ∧ walletConnectedAt u = Some 10
      ∧ metadata u = Some (default ∅ (opt_metadata (only_key "K")))
      ∧ getUserByPublicKey (publicKey (only_key "K")) s' = (Return (Some u), s')
      ∧ MemoryUserStore.findByUserId (id u) s' = (Return (Some u), s')
      ∧ (truthy (opt_email (only_key "K")) = true →
         MemoryUserStore.findByEmail
           (default EmptyString (opt_email (only_key "K"))) s'
         = (Return (Some u), s'))
      ∧ MemoryUserStore.nextId s'
        = MemoryUserStore.nextId MemoryUserStore.empty + 1
      ∧ ∀ j, j ≠ id u →
             MemoryUserStore.users s' !! j
             = MemoryUserStore.users MemoryUserStore.empty !! j.
Proof.
  split; [reflexivity |]. split; [reflexivity |].
  exact (linkOrCreateUser_creates MemoryUserStore.empty 10 (only_key "K")
           eq_refl eq_refl eq_refl (or_introl eq_refl)).
Defined.

Lemma linkOrCreateUser_links_existing_witness :
  MemoryUserStore.users unlinked !! "1" = Some (record None None)
  ∧ MemoryUserStore.via_index (MemoryUserStore.walletIndex unlinked)
      (publicKey (to_user "L" "1")) unlinked = None
  ∧ ∃ u s' m,
      linkOrCreateUser 20 (to_user "L" "1") unlinked = (Return u, s')
      ∧ id u = id (record None None) ∧ email u = email (record None None)
      ∧ walletPublicKey u = Some (publicKey (to_user "L" "1"))
      ∧ walletConnectedAt u = Some 20
      ∧ metadata u = Some m
      ∧ (∀ key,
           m !! key
           = match default ∅ (opt_metadata (to_user "L" "1")) !! key with
             | Some v => Some v
             | None => default ∅ (metadata (record None None)) !! key
             end)
      ∧ MemoryUserStore.users s' !! "1" = Some u
      ∧ getUserByPublicKey (publicKey (to_user "L" "1")) s'
        = (Return (Some u), s')
      ∧ MemoryUserStore.nextId s' = MemoryUserStore.nextId unlinked
      ∧ ∀ j, j ≠ "1" →
             MemoryUserStore.users s' !! j
             = MemoryUserStore.users unlinked !! j.
Proof.
  assert (H1 : MemoryUserStore.users unlinked !! "1"
               = Some (record None None)) by reflexivity.
  assert (H2 : MemoryUserStore.via_index (MemoryUserStore.walletIndex unlinked)
                 (publicKey (to_user "L" "1")) unlinked = None)
    by reflexivity.
  split; [exact H1 |]. split; [exact H2 |].
  exact (linkOrCreateUser_links_existing unlinked 20 (to_user "L" "1") "1"
           (record None None) eq_refl H2 eq_refl eq_refl H1 eq_refl).
Defined.

Lemma linkOrCreateUser_links_by_email_witness :
  MemoryUserStore.via_index (MemoryUserStore.emailIndex unlinked_mail)
    "ann@example.org" unlinked_mail = Some mail_record
  ∧ MemoryUserStore.via_index (MemoryUserStore.walletIndex unlinked_mail)
      (publicKey (with_email "L" "ann@example.org")) unlinked_mail = None
  ∧ ∃ u s',
      linkOrCreateUser 20 (with_email "L" "ann@example.org") unlinked_mail
      = (Return u, s')
      ∧ id u = id mail_record ∧ email u = email mail_record
      ∧ walletPublicKey u
        = Some (publicKey (with_email "L" "ann@example.org"))
      ∧ walletConnectedAt u = Some 20
      ∧ MemoryUserStore.users s' !! id mail_record = Some u
      ∧ getUserByPublicKey (publicKey (with_email "L" "ann@example.org")) s'
        = (Return (Some u), s')
      ∧ MemoryUserStore.nextId s' = MemoryUserStore.nextId unlinked_mail.
Proof.
  assert (H1 : MemoryUserStore.via_index
                 (MemoryUserStore.emailIndex unlinked_mail)
                 "ann@example.org" unlinked_mail = Some mail_record)
    by reflexivity.
  assert (H2 : MemoryUserStore.via_index
                 (MemoryUserStore.walletIndex unlinked_mail)
                 (publicKey (with_email "L" "ann@example.org")) unlinked_mail
               = None) by reflexivity.
  split; [exact H1 |]. split; [exact H2 |].
  exact (linkOrCreateUser_links_by_email unlinked_mail 20
           (with_email "L" "ann@example.org") "ann@example.org" mail_record
           eq_refl H2 eq_refl eq_refl eq_refl H1 eq_refl eq_refl eq_refl).
Defined.

Lemma linkOrCreateUser_refuses_witness :
  MemoryUserStore.via_index (MemoryUserStore.walletIndex linked)
    (publicKey (to_user "L" "1")) linked = None
  ∧ MemoryUserStore.users linked !! "1" = Some (record (Some "K") (Some 10))
  ∧ linkOrCreateUser 20 (to_user "L" "1") linked
    = (Throw (JsError "User already has a linked wallet"), linked).
Proof.
  assert (H1 : MemoryUserStore.via_index (MemoryUserStore.walletIndex linked)
                 (publicKey (to_user "L" "1")) linked = None) by reflexivity.
  assert (H2 : MemoryUserStore.users linked !! "1"
               = Some (record (Some "K") (Some 10))) by reflexivity.
  split; [exact H1 |]. split; [exact H2 |].
  exact (linkOrCreateUser_refuses linked 20 (to_user "L" "1") _ H1
           (or_intror (or_introl
              (ex_intro _ "1"
                 (ex_intro _ (record (Some "K") (Some 10))
                    (conj eq_refl (conj eq_refl (conj H2
                       (conj eq_refl eq_refl))))))))).
Defined.

End UserIds.

(** ** Verifier and challenges *)

Section MoreVerifier.
Import Core Auth Props Inputs TestPrimitives ServerMore.

(** The timestamp of a challenge text reads back, whatever produced the
    text. *)
Lemma challenge_text_extract (t : Z) (appName nonce : string) :
  0 <= t →
  match_Timestamp appName = None →
  match_Timestamp nonce = None →
  extractTimestamp
    (appName +:+ intro +:+ nonce +:+ nl +:+ stamp +:+ String_of_number t)
  = Some t.
Proof.
  intros Ht Happ Hnonce. unfold extractTimestamp.
  rewrite (match_Timestamp_app appName) by (apply no_tail_intro || assumption).
  rewrite match_Timestamp_intro.
  rewrite match_Timestamp_app by (apply no_tail_nl || assumption).
  destruct (String_of_number_digits t Ht) as (Hd & Hne & Hparse).
  rewrite match_Timestamp_nl, match_Timestamp_here by assumption.
  exact Hparse.
Qed.

(** X14. What [verifyWalletSignature] decides: the result is valid
    exactly when the key is well formed, the timestamp check (if on)
    passes and the signature verifies. A valid result carries the key, no
    error and the timestamp of the message, which with the check on is
    younger than [maxAgeMs]; an invalid result carries no key and one of
    the three error texts. *)
Theorem verifyWalletSignature_decides `{Primitives}
    (now : Z) (options : VerifySignatureOptions) :
  (valid (verifyWalletSignature now options) = true
   ↔ isValidPublicKey (publicKey options) = true
     ∧ (default true (checkTimestamp options) = true →
        isMessageTimestampValid now (message options)
          (default 300000 (maxAgeMs options)) = true)
     ∧ verifySignature (message options) (signature options)
         (publicKey options) = true)
  ∧ (valid (verifyWalletSignature now options) = true →
     resultPublicKey (verifyWalletSignature now options)
     = Some (publicKey options)
     ∧ error (verifyWalletSignature now options) = None
     ∧ timestamp (verifyWalletSignature now options)
       = extractTimestamp (message options)
     ∧ (default true (checkTimestamp options) = true →
        ∃ ts, timestamp (verifyWalletSignature now options) = Some ts
              ∧ now - ts < default 300000 (maxAgeMs options)))
  ∧ (valid (verifyWalletSignature now options) = false →
     resultPublicKey (verifyWalletSignature now options) = None
     ∧ timestamp (verifyWalletSignature now options) = None
     ∧ (error (verifyWalletSignature now options)
        = Some "Invalid public key format"
        ∨ error (verifyWalletSignature now options)
          = Some "Message timestamp expired or invalid"
        ∨ error (verifyWalletSignature now options)
          = Some "Invalid signature")).
Proof.
  unfold verifyWalletSignature.
  rewrite isMessageTimestampValid_extract.
  destruct (isValidPublicKey (publicKey options)); simpl.
  2: { split; [split; [discriminate | intros [[=] _]] |].
       split; [discriminate | intros _; repeat split; now left]. }
  destruct (default true (checkTimestamp options)); simpl.
  - destruct (extractTimestamp (message options)) as [ts|]; simpl.
    + destruct (Z.ltb_spec (now - ts) (default 300000 (maxAgeMs options)));
        simpl.
      * destruct (verifySignature _ _ _); simpl.
        -- split; [split; [intros _; repeat split | reflexivity] |].
           split; [| discriminate]. intros _. repeat split.
           intros _. exists ts. split; [reflexivity | assumption].
        -- split; [split; [discriminate | intros (_ & _ & [=])] |].
           split; [discriminate |]. intros _. repeat split. right; now right.
      * split; [split; [discriminate | intros (_ & Hc & _)] |].
        { specialize (Hc eq_refl). discriminate. }
        split; [discriminate |]. intros _. repeat split. right; now left.
    + split; [split; [discriminate | intros (_ & Hc & _)] |].
      { specialize (Hc eq_refl). discriminate. }
      split; [discriminate |]. intros _. repeat split. right; now left.
  - destruct (verifySignature _ _ _); simpl.
    + split; [split; [intros _; repeat split; discriminate | reflexivity] |].
      split; [| discriminate]. intros _. repeat split. discriminate.
    + split; [split; [discriminate | intros (_ & _ & [=])] |].
      split; [discriminate |]. intros _. repeat split. right; now right.
Qed.

(** X15. A generated challenge passes the timestamp check exactly while it
    is younger than [maxAgeMs]: for an application name and a nonce
    without a match of the pattern and a clock that is not negative,
    [isMessageTimestampValid] at [now] is [now - t < maxAgeMs]. *)
Theorem challenge_fresh_window
    (t now maxAgeMs' : Z) (rnd appName : string) (nonce : option string) :
  0 <= t →
  match_Timestamp appName = None →
  match_Timestamp (or_else nonce (randomNonce rnd)) = None →
  isMessageTimestampValid now (generateSignatureMessage t rnd appName nonce)
    maxAgeMs'
  = (now - t <? maxAgeMs').
Proof.
  intros Ht Happ Hnonce. rewrite isMessageTimestampValid_extract.
  unfold generateSignatureMessage.
  now rewrite challenge_text_extract.
Qed.

Lemma challenge_fresh_window_witness :
  0 <= t0
  ∧ match_Timestamp "Acme" = None
  ∧ match_Timestamp (or_else None (randomNonce rnd0)) = None
  ∧ isMessageTimestampValid (t0 + 5) (generateSignatureMessage t0 rnd0 "Acme" None)
      300000
    = (t0 + 5 - t0 <? 300000).
Proof.
  assert (H0 : 0 <= t0) by (unfold t0; lia).
  assert (H1 : match_Timestamp "Acme" = None) by reflexivity.
  assert (H2 : match_Timestamp (or_else None (randomNonce rnd0)) = None)
    by reflexivity.
  split; [exact H0 |]. split; [exact H1 |]. split; [exact H2 |].
  exact (challenge_fresh_window t0 (t0 + 5) 300000 rnd0 "Acme" None H0 H1 H2).
Defined.

(** X16. The server's [createChallenge] writes the text that the client's
    [generateSignatureMessage] writes for the same non-empty nonce and
    time, and its timestamp reads back as the time of creation also for
    an empty nonce. *)
Theorem createChallenge_agrees
    (t : Z) (rnd appName nonce : string) :
  0 <= t →
  match_Timestamp appName = None →
  match_Timestamp nonce = None →
  extractTimestamp (createChallenge t appName nonce) = Some t
  ∧ (truthy_str nonce = true →
     createChallenge t appName nonce
     = generateSignatureMessage t rnd appName (Some nonce)).
Proof.
  intros Ht Happ Hnonce. split.
  - rewrite <- (challenge_text_extract t appName nonce Ht Happ Hnonce).
    reflexivity.
  - intros Hne. unfold generateSignatureMessage, or_else. rewrite Hne.
    reflexivity.
Qed.

Lemma createChallenge_agrees_witness :
  0 <= t0
  ∧ match_Timestamp "Acme" = None
  ∧ match_Timestamp "82mvyr" = None
  ∧ extractTimestamp (createChallenge t0 "Acme" "82mvyr") = Some t0
  ∧ (truthy_str "82mvyr" = true →
     createChallenge t0 "Acme" "82mvyr"
     = generateSignatureMessage t0 rnd0 "Acme" (Some "82mvyr")).
Proof.
  assert (H0 : 0 <= t0) by (unfold t0; lia).
  assert (H1 : match_Timestamp "Acme" = None) by reflexivity.
  assert (H2 : match_Timestamp "82mvyr" = None) by reflexivity.
  split; [exact H0 |]. split; [exact H1 |]. split; [exact H2 |].
  exact (createChallenge_agrees t0 rnd0 "Acme" "82mvyr" H0 H1 H2).
Defined.

(** X17. The verifier of the Next.js package and the verifier of the
    server package give the same verdict, key and error on the same
    parameters. *)
Theorem next_verifier_agrees `{Primitives}
    (now : Z) (params : VerifySignatureOptions) :
  NextServer.valid (NextServer.verifyWalletSignature now params)
  = valid (verifyWalletSignature now params)
  ∧ NextServer.publicKey (NextServer.verifyWalletSignature now params)
    = resultPublicKey (verifyWalletSignature now params)
  ∧ NextServer.error (NextServer.verifyWalletSignature now params)
    = error (verifyWalletSignature now params).
Proof.
  unfold NextServer.verifyWalletSignature, verifyWalletSignature.
  destruct (isValidPublicKey _); simpl; [| repeat split].
  destruct (default true (checkTimestamp params)
            && negb (isMessageTimestampValid now (message params)
                       (default 300000 (maxAgeMs params))));
    simpl; [repeat split |].
  destruct (verifySignature _ _ _); repeat split.
Qed.

End MoreVerifier.

(** ** Display of a public key *)

Section MoreDisplay.
Import Display.

Lemma string_length_take (n : nat) (s : string) :
  String.length (take n s) = Nat.min n (String.length s).
Proof.
  revert s; induction n as [|n IH]; intros [|c s]; simpl; auto.
Qed.

Lemma string_length_slice (n : nat) (s : string) :
  String.length (slice n s) = (String.length s - n)%nat.
Proof.
  revert s; induction n as [|n IH]; intros [|c s]; simpl; auto with arith.
Qed.

Lemma string_take_all (n : nat) (s : string) :
  (String.length s <= n)%nat → take n s = s.
Proof.
  revert s; induction n as [|n IH]; intros [|c s]; simpl; intros Hn;
    try reflexivity; [lia |].
  f_equal. apply IH. lia.
Qed.

Lemma string_length_app (a b : string) :
  String.length (a +:+ b) = (String.length a + String.length b)%nat.
Proof.
  induction a as [|c a IH]; [reflexivity |].
  change (String c a +:+ b) with (String c (a +:+ b)). simpl. now rewrite IH.
Qed.

Lemma string_take_slice (n : nat) (s : string) : take n s +:+ slice n s = s.
Proof.
  revert s; induction n as [|n IH]; intros [|c s]; try reflexivity.
  change (take (S n) (String c s) +:+ slice (S n) (String c s))
    with (String c (take n s +:+ slice n s)).
  now rewrite IH.
Qed.

(** X18. For a positive [chars], [truncatePublicKey] shows the first
    [min chars len] characters of the key, three dots, and its last
    [min chars len] characters: [2 * min chars len + 3] characters in all,
    so a key of at most [chars] characters is shown whole twice. *)
Theorem truncatePublicKey_shape (publicKey : string) (chars : Z) :
  0 < chars →
  truncatePublicKey publicKey (Some chars)
  = take (Z.to_nat (Z.min chars (Z.of_nat (String.length publicKey))))
      publicKey
    +:+ "..."
    +:+ slice (String.length publicKey
               - Z.to_nat (Z.min chars (Z.of_nat (String.length publicKey))))
          publicKey
  ∧ String.length (truncatePublicKey publicKey (Some chars))
    = (2 * Z.to_nat (Z.min chars (Z.of_nat (String.length publicKey))) + 3)%nat.
Proof.
  intros Hc.
  set (len := String.length publicKey).
  set (n := Z.to_nat (Z.min chars (Z.of_nat len))).
  assert (Hshape :
    truncatePublicKey publicKey (Some chars)
    = take n publicKey +:+ "..." +:+ slice (len - n) publicKey).
  { unfold truncatePublicKey, slice_range, clamp; simpl. fold len.
    destruct (Z.ltb_spec chars 0); [lia |].
    destruct (Z.ltb_spec (- chars) 0); [| lia].
    replace (Z.to_nat (Z.min 0 (Z.of_nat len))) with 0%nat by lia.
    rewrite Nat.sub_0_r. fold n.
    replace (Z.to_nat (Z.max (Z.of_nat len + - chars) 0)) with (len - n)%nat
      by (unfold n; lia).
    rewrite (string_take_all (len - (len - n))).
    - reflexivity.
    - rewrite string_length_slice. fold len. lia. }
  split; [exact Hshape |].
  rewrite Hshape, !string_length_app, string_length_take, string_length_slice. fold len.
  simpl. unfold n. lia.
Qed.

Lemma truncatePublicKey_shape_witness :
  0 < 4
  ∧ truncatePublicKey "7xKxAbCdEfGh" (Some 4)
    = take (Z.to_nat (Z.min 4 (Z.of_nat (String.length "7xKxAbCdEfGh"))))
        "7xKxAbCdEfGh"
      +:+ "..."
      +:+ slice (String.length "7xKxAbCdEfGh"
                 - Z.to_nat
                     (Z.min 4 (Z.of_nat (String.length "7xKxAbCdEfGh"))))
            "7xKxAbCdEfGh"
  ∧ String.length (truncatePublicKey "7xKxAbCdEfGh" (Some 4))
    = (2 * Z.to_nat (Z.min 4 (Z.of_nat (String.length "7xKxAbCdEfGh"))) + 3)%nat.
Proof.
  assert (H : 0 < 4) by lia.
  split; [exact H |]. exact (truncatePublicKey_shape "7xKxAbCdEfGh" 4 H).
Defined.

Example truncatePublicKey_default :
  truncatePublicKey "7xKxAbCdEfGh" None = "7xKx...EfGh"
  ∧ truncatePublicKey "abc" None = "abc...abc".
Proof. split; reflexivity. Qed.

(** X19. With [chars = 0] nothing is hidden: [truncatePublicKey] returns
    three dots followed by the whole key, because [slice(-0)] is
    [slice(0)]. *)
Theorem truncatePublicKey_zero (publicKey : string) :
  truncatePublicKey publicKey (Some 0) = "..." +:+ publicKey.
Proof.
  unfold truncatePublicKey, slice_range, clamp; simpl.
  destruct (Z.of_nat (String.length publicKey)) eqn:Hlen; simpl;
    try lia; rewrite Nat.sub_0_r, string_take_all by lia; reflexivity.
Qed.

End MoreDisplay.

(** ** The rejecting middleware *)

Section MoreMiddleware.
Import Auth Middleware Props MiddlewareProps MoreProps Inputs
  TestPrimitives.




(** The strict handler on a verified header. *)
Example strict_attaches_verified_key :
  @createWalletAuthMiddleware accept_all no_options (t0 + 1000)
    signed_request
  = ({| headers := headers signed_request;
        walletPublicKey := Some "7xKxabc" |}, [Next]).
Proof. vm_compute; reflexivity. Qed.

(** X21. Only the first three colon-separated fields of a header count:
    whatever follows a further colon is dropped, so a message that is not
    percent-encoded is cut at its first colon; with two fields the third
    is missing. *)
Theorem fields_first_three (a b c rest : string) :
  no_colon a = true → no_colon b = true → no_colon c = true →
  fields (a +:+ ":" +:+ b +:+ ":" +:+ c +:+ ":" +:+ rest)
  = (Some a, Some b, Some c)
  ∧ fields (a +:+ ":" +:+ b +:+ ":" +:+ c) = (Some a, Some b, Some c)
  ∧ fields (a +:+ ":" +:+ b) = (Some a, Some b, None).
Proof.
  unfold no_colon, fields, split. intros Ha Hb Hc.
  assert (Hcolon : ∀ x, ":" +:+ x = String ":" x) by reflexivity.
  rewrite !Hcolon.
  rewrite !(lacks_split_go_sep ":" EmptyString a) by assumption.
  rewrite !(lacks_split_go_sep ":" EmptyString b) by assumption.
  rewrite (lacks_split_go ":" EmptyString b) by assumption.
  rewrite (lacks_split_go_sep ":" EmptyString c) by assumption.
  rewrite (lacks_split_go ":" EmptyString c) by assumption.
  repeat split.
Qed.

Lemma fields_first_three_witness :
  no_colon "7xKxabc" = true ∧ no_colon "5sig" = true ∧ no_colon "Nonce" = true
  ∧ fields ("7xKxabc" +:+ ":" +:+ "5sig" +:+ ":" +:+ "Nonce" +:+ ":"
            +:+ " 82mvyr")
    = (Some "7xKxabc", Some "5sig", Some "Nonce")
  ∧ fields ("7xKxabc" +:+ ":" +:+ "5sig" +:+ ":" +:+ "Nonce")
    = (Some "7xKxabc", Some "5sig", Some "Nonce")
  ∧ fields ("7xKxabc" +:+ ":" +:+ "5sig") = (Some "7xKxabc", Some "5sig", None).
Proof.
  split; [reflexivity |]. split; [reflexivity |]. split; [reflexivity |].
  exact (fields_first_three "7xKxabc" "5sig" "Nonce" " 82mvyr"
           eq_refl eq_refl eq_refl).
Defined.



End MoreMiddleware.

(** ** Event emitter *)

Section MoreEmitter.
Import Emitter.

Lemma event_eqb_eq (a b : WalletEvent) : event_eqb a b = true ↔ a = b.
Proof. destruct a, b; simpl; split; congruence. Qed.

Lemma event_eqb_refl (a : WalletEvent) : event_eqb a a = true.
Proof. now destruct a. Qed.

Lemma event_eqb_ne (a b : WalletEvent) : a ≠ b → event_eqb a b = false.
Proof.
  intros Hne. destruct (event_eqb a b) eqn:Heq; [| reflexivity].
  apply event_eqb_eq in Heq. contradiction.
Qed.

Lemma existsb_callback (callback : Callback) (set : list Callback) :
  existsb (Nat.eqb callback) set = true ↔ In callback set.
Proof.
  rewrite existsb_exists. split.
  - intros (x & Hx & Heq). apply Nat.eqb_eq in Heq. now subst.
  - intros Hin. exists callback. split; [assumption | apply Nat.eqb_refl].
Qed.

Lemma called_emit (throws : Callback → option Value → bool)
    (event : WalletEvent) (data : option Value) (events : Events) :
  called (emit throws event data events) = default [] (events event).
Proof.
  unfold emit, called. destruct (events event) as [set|]; [| reflexivity].
  simpl. induction set as [|c set IH]; [reflexivity |].
  simpl. rewrite flat_map_app, IH.
  destruct (throws c data); reflexivity.
Qed.

Lemma add_NoDup (callback : Callback) (set : list Callback) :
  NoDup set → NoDup (add callback set).
Proof.
  intros Hnd. unfold add.
  destruct (existsb (Nat.eqb callback) set) eqn:Hin; [assumption |].
  apply NoDup_app. split; [assumption |].
  split; [| apply NoDup_singleton].
  intros x Hx ->%list_elem_of_singleton.
  apply list_elem_of_In, existsb_callback in Hx. congruence.
Qed.

Lemma remove_NoDup (callback : Callback) (set : list Callback) :
  NoDup set → NoDup (remove callback set).
Proof.
  intros Hnd. apply NoDup_ListNoDup, List.NoDup_filter, NoDup_ListNoDup, Hnd.
Qed.

Lemma listeners_on (event : WalletEvent) (callback : Callback)
    (events : Events) :
  default [] (on event callback events event)
  = add callback (default [] (events event)).
Proof.
  unfold on, put. rewrite event_eqb_refl. simpl.
  destruct (events event) as [set|] eqn:Hs; simpl; [now rewrite Hs |].
  now rewrite event_eqb_refl.
Qed.

Lemma listeners_off (event : WalletEvent) (callback : Callback)
    (events : Events) :
  default [] (off event callback events event)
  = remove callback (default [] (events event)).
Proof.
  unfold off. destruct (events event) as [set|] eqn:Hs.
  - unfold put. now rewrite event_eqb_refl.
  - now rewrite Hs.
Qed.

Lemma on_other (event other : WalletEvent) (callback : Callback)
    (events : Events) :
  event ≠ other → on other callback events event = events event.
Proof.
  intros Hne. unfold on, put. rewrite (event_eqb_ne _ _ Hne).
  destruct (events other); [reflexivity |]. now rewrite (event_eqb_ne _ _ Hne).
Qed.

Lemma off_other (event other : WalletEvent) (callback : Callback)
    (events : Events) :
  event ≠ other → off other callback events event = events event.
Proof.
  intros Hne. unfold off, put.
  destruct (events other); [| reflexivity]. now rewrite (event_eqb_ne _ _ Hne).
Qed.

Lemma step_NoDup (events : Events) (op : Op) :
  (∀ e, NoDup (default [] (events e))) →
  ∀ e, NoDup (default [] (step events op e)).
Proof.
  intros Hnd e. destruct op as [e' cb | e' cb | [e'|]]; simpl.
  - destruct (event_eqb e e') eqn:He.
    + apply event_eqb_eq in He as ->. rewrite listeners_on.
      apply add_NoDup, Hnd.
    + rewrite on_other; [apply Hnd |].
      intros ->. now rewrite event_eqb_refl in He.
  - destruct (event_eqb e e') eqn:He.
    + apply event_eqb_eq in He as ->. rewrite listeners_off.
      apply remove_NoDup, Hnd.
    + rewrite off_other; [apply Hnd |].
      intros ->. now rewrite event_eqb_refl in He.
  - unfold put. destruct (event_eqb e e'); [apply NoDup_nil_2 | apply Hnd].
  - apply NoDup_nil_2.
Qed.

(** The sets of an emitter never hold a listener twice. *)
Lemma run_NoDup (ops : list Op) (event : WalletEvent) :
  NoDup (default [] (run ops event)).
Proof.
  unfold run. revert event.
  assert (Hinit : ∀ e, NoDup (default [] (no_events e)))
    by (intros e; apply NoDup_nil_2).
  revert Hinit. generalize no_events.
  induction ops as [|op ops IH]; intros events Hnd e; [apply Hnd |].
  simpl. apply IH. now apply step_NoDup.
Qed.

(** X23. On an emitter reached by any calls, a listener registered with
    [on], once or many times, is called exactly once by [emit] of that
    event, and after [off] it is not called at all. *)
Theorem on_then_off (ops : list Op)
    (throws : Callback → option Value → bool)
    (event : WalletEvent) (callback : Callback) (data : option Value) :
  count_occ Nat.eq_dec
    (called (emit throws event data (on event callback (run ops)))) callback
  = 1%nat
  ∧ count_occ Nat.eq_dec
      (called
         (emit throws event data
            (on event callback (on event callback (run ops))))) callback
    = 1%nat
  ∧ count_occ Nat.eq_dec
      (called (emit throws event data (off event callback (run ops))))
      callback
    = 0%nat.
Proof.
  pose proof (run_NoDup ops event) as Hnd.
  assert (Hone : ∀ set, NoDup set →
            count_occ Nat.eq_dec (add callback set) callback = 1%nat).
  { intros set Hs. unfold add, Callback in *.
    destruct (existsb (Nat.eqb callback) set) eqn:Hin.
    - apply existsb_callback in Hin.
      apply NoDup_ListNoDup in Hs.
      apply (proj1 (NoDup_count_occ' Nat.eq_dec set) Hs _ Hin).
    - assert (Hnot : ¬ In callback set)
        by (intros Hc; apply existsb_callback in Hc; congruence).
      apply (count_occ_not_In Nat.eq_dec) in Hnot.
      rewrite count_occ_app, Hnot. simpl.
      destruct (Nat.eq_dec callback callback); [reflexivity | contradiction]. }
  rewrite !called_emit, !listeners_on, listeners_off.
  split; [now apply Hone |]. split; [apply Hone; now apply add_NoDup |].
  apply count_occ_not_In. unfold remove. rewrite filter_In.
  intros [_ Hc]. now rewrite Nat.eqb_refl in Hc.
Qed.

(** X24. [emit] calls every listener of the event, in the order of
    registration, whether or not some of them throw; a listener that is
    new to the event is called last. *)
Theorem emit_calls_in_order
    (throws : Callback → option Value → bool)
    (event : WalletEvent) (callback : Callback) (data : option Value)
    (events : Events) :
  ¬ In callback (default [] (events event)) →
  called (emit throws event data events)
  = called (emit (λ _ _, false) event data events)
  ∧ emit throws event data (on event callback events)
    = emit throws event data events
      ++ (if throws callback data
          then [Called callback data; Logged event]
          else [Called callback data]).
Proof.
  intros Hnew. split; [now rewrite !called_emit |].
  assert (Hadd : on event callback events event
                 = Some (default [] (events event) ++ [callback])).
  { unfold on, put. rewrite event_eqb_refl. f_equal.
    assert (Hset : default [] (match events event with
                               | Some _ => events
                               | None => λ e, if event_eqb e event
                                              then Some [] else events e
                               end event) = default [] (events event)).
    { destruct (events event) as [set|] eqn:Hs; [now rewrite Hs |].
      now rewrite event_eqb_refl. }
    unfold put in *. rewrite Hset. unfold add.
    destruct (existsb (Nat.eqb callback) (default [] (events event))) eqn:Hin;
      [| reflexivity].
    apply existsb_callback in Hin. contradiction. }
  unfold emit. rewrite Hadd.
  destruct (events event) as [set|]; simpl.
  - rewrite flat_map_app. simpl. now rewrite app_nil_r.
  - now rewrite app_nil_r.
Qed.

Lemma emit_calls_in_order_witness :
  ¬ In 2%nat (default [] (run [On connect 1%nat] connect))
  ∧ called (emit (λ c _, Nat.eqb c 1) connect None (run [On connect 1%nat]))
    = called (emit (λ _ _, false) connect None (run [On connect 1%nat]))
  ∧ emit (λ c _, Nat.eqb c 1) connect None
      (on connect 2%nat (run [On connect 1%nat]))
    = emit (λ c _, Nat.eqb c 1) connect None (run [On connect 1%nat])
      ++ (if Nat.eqb 2 1
          then [Called 2%nat None; Logged connect]
          else [Called 2%nat None]).
Proof.
  assert (H : ¬ In 2%nat (default [] (run [On connect 1%nat] connect))).
  { simpl. intros [Heq | []]. discriminate. }
  split; [exact H |].
  exact (emit_calls_in_order (λ c _, Nat.eqb c 1) connect 2%nat None
           (run [On connect 1%nat]) H).
Defined.

(** X25. The events are independent: [on], [off] and
    [removeAllListeners] of one event never change what [emit] does for
    another; [removeAllListeners] of an event, or without an event,
    leaves [emit] with nothing to call. *)
Theorem events_independent
    (throws : Callback → option Value → bool)
    (event other : WalletEvent) (callback : Callback) (data : option Value)
    (events : Events) :
  event ≠ other →
  emit throws event data (on other callback events)
  = emit throws event data events
  ∧ emit throws event data (off other callback events)
    = emit throws event data events
  ∧ emit throws event data (removeAllListeners (Some other) events)
    = emit throws event data events
  ∧ emit throws event data (removeAllListeners (Some event) events) = []
  ∧ emit throws event data (removeAllListeners None events) = [].
Proof.
  intros Hne. unfold emit.
  rewrite (on_other _ _ _ _ Hne), (off_other _ _ _ _ Hne).
  unfold removeAllListeners, put.
  rewrite (event_eqb_ne _ _ Hne), event_eqb_refl. repeat split.
Qed.

Lemma events_independent_witness :
  connect ≠ error
  ∧ emit (λ _ _, false) connect None (on error 7%nat (run [On connect 1%nat]))
    = emit (λ _ _, false) connect None (run [On connect 1%nat])
  ∧ emit (λ _ _, false) connect None (off error 7%nat (run [On connect 1%nat]))
    = emit (λ _ _, false) connect None (run [On connect 1%nat])
  ∧ emit (λ _ _, false) connect None
      (removeAllListeners (Some error) (run [On connect 1%nat]))
    = emit (λ _ _, false) connect None (run [On connect 1%nat])
  ∧ emit (λ _ _, false) connect None
      (removeAllListeners (Some connect) (run [On connect 1%nat])) = []
  ∧ emit (λ _ _, false) connect None
      (removeAllListeners None (run [On connect 1%nat])) = [].
Proof.
  assert (H : connect ≠ error) by discriminate.
  split; [exact H |].
  exact (events_independent (λ _ _, false) connect error 7%nat None
           (run [On connect 1%nat]) H).
Defined.

End MoreEmitter.

(** ** The example server *)

Section MoreExample.
Import Auth Session Users Run Props Inputs MoreInputs TestPrimitives
  ExampleServer.

(** Signing in with a key only never throws on the in-memory store, and
    the user it returns is the one the key then resolves to. *)
Lemma link_then_find (s : MemoryUserStore.State) (now : Z) (k : string) :
  truthy_str k = true →
  ∃ u s1,
    linkOrCreateUser now (only_key k) s = (Return u, s1)
    ∧ getUserByPublicKey k s1 = (Return (Some u), s1)
    ∧ ∀ now', linkOrCreateUser now' (only_key k) s1 = (Return u, s1).
Proof.
  intros Hk.
  unfold linkOrCreateUser, getUserByPublicKey, bind, ret; simpl.
  unfold MemoryUserStore.findByPublicKey.
  destruct (MemoryUserStore.via_index _ k s) as [existing|] eqn:Hfind.
  - eexists _, _. split; [reflexivity |]. rewrite Hfind.
    split; [reflexivity | intros _; reflexivity].
  - eexists _, _. split; [reflexivity |].
    unfold MemoryUserStore.via_index; simpl.
    rewrite Hk, lookup_insert_eq, String_of_number_truthy, lookup_insert_eq.
    split; [reflexivity | intros _; reflexivity].
Qed.

Lemma verify_key `{Primitives} (now : Z) (body : Body) :
  valid (verify now body) = true →
  resultPublicKey (verify now body) = Some (body_publicKey body).
Proof. intros Hv. apply (valid_echoes_key _ _ Hv). Qed.

(** What a successful sign-in stores. *)
Lemma authWallet_success `{Primitives}
    (now : Z) (sessionId : string) (body : Body) (st : State)
    (u : UserRecord) (s1 : MemoryUserStore.State) :
  valid (verify now body) = true →
  linkOrCreateUser now (only_key (body_publicKey body)) (userStore st)
  = (Return u, s1) →
  authWallet now sessionId body st
  = (Authenticated sessionId (id u) (walletPublicKey u),
     {| userStore := s1;
        sessionStore :=
          <[sessionId :=
              {| Session.publicKey := body_publicKey body;
                 userId := Some (id u);
                 createdAt := now;
                 expiresAt := Some (now + 86400000);
                 Session.metadata := None |}]> (sessionStore st) |}).
Proof.
  intros Hv Hlink. unfold authWallet. rewrite Hv, (verify_key _ _ Hv).
  simpl negb. cbv iota. change (default "" (Some ?x)) with x.
  change {| Users.publicKey := body_publicKey body; existingUserId := None;
            opt_email := None; Users.opt_metadata := None |}
    with (only_key (body_publicKey body)).
  rewrite Hlink. reflexivity.
Qed.

(** X26. Signing in with a verified triple answers with the session id
    and the user's id; until the session expires, a day later, the
    session route returns a session with the key of the request and that
    user id, together with the user of that id. *)
Theorem sign_in_then_session `{Primitives}
    (now later : Z) (sessionId : string) (body : Body) (st : State) :
  valid (verify now body) = true →
  truthy_str (body_publicKey body) = true →
  later <= now + 86400000 →
  ∃ uid w st1 session user,
    authWallet now sessionId body st = (Authenticated sessionId uid w, st1)
    ∧ sessionRoute later sessionId st1 = (SessionInfo session (Some user), st1)
    ∧ Session.publicKey session = body_publicKey body
    ∧ userId session = Some uid
    ∧ id user = uid.
Proof.
  intros Hv Hk Hle.
  destruct (link_then_find (userStore st) now (body_publicKey body) Hk)
    as (u & s1 & Hlink & Hfind & _).
  rewrite (authWallet_success _ _ _ _ _ _ Hv Hlink).
  eexists _, _, _, _, _. split; [reflexivity |].
  unfold sessionRoute. simpl sessionStore. simpl userStore.
  rewrite (get_live later sessionId _ _ (lookup_insert_eq _ _ _)).
  - simpl Session.publicKey. rewrite Hfind. repeat split.
  - eapply not_expired_until; [reflexivity | exact Hle].
Qed.

Lemma sign_in_then_session_witness :
  valid (@verify accept_all (t0 + 1000) sign_in) = true
  ∧ truthy_str (body_publicKey sign_in) = true
  ∧ t0 + 5000 <= t0 + 1000 + 86400000
  ∧ ∃ uid w st1 session user,
      @authWallet accept_all (t0 + 1000) "ab12" sign_in start
      = (Authenticated "ab12" uid w, st1)
      ∧ sessionRoute (t0 + 5000) "ab12" st1
        = (SessionInfo session (Some user), st1)
      ∧ Session.publicKey session = body_publicKey sign_in
      ∧ userId session = Some uid
      ∧ id user = uid.
Proof.
  assert (H1 : valid (@verify accept_all (t0 + 1000) sign_in) = true)
    by (vm_compute; reflexivity).
  assert (H2 : t0 + 5000 <= t0 + 1000 + 86400000) by lia.
  split; [exact H1 |]. split; [reflexivity |]. split; [exact H2 |].
  exact (@sign_in_then_session accept_all (t0 + 1000) (t0 + 5000) "ab12"
           sign_in start H1 eq_refl H2).
Defined.

(** X27. The sign-in route never answers 500 over the in-memory stores:
    it answers 401 with the verifier's error and leaves both stores as
    they were when verification fails, and answers with the session id
    when it succeeds for a non-empty key. *)
Theorem sign_in_outcomes `{Primitives}
    (now : Z) (sessionId : string) (body : Body) (st : State) :
  truthy_str (body_publicKey body) = true →
  (valid (verify now body) = false
   ∧ authWallet now sessionId body st
     = (Failed 401 (error (verify now body)), st))
  ∨ (valid (verify now body) = true
     ∧ ∃ uid w st1,
         authWallet now sessionId body st
         = (Authenticated sessionId uid w, st1)).
Proof.
  intros Hk.
  destruct (valid (verify now body)) eqn:Hv; [right | left].
  - split; [reflexivity |].
    destruct (link_then_find (userStore st) now (body_publicKey body) Hk)
      as (u & s1 & Hlink & _).
    rewrite (authWallet_success _ _ _ _ _ _ Hv Hlink).
    eexists _, _, _. reflexivity.
  - split; [reflexivity |]. unfold authWallet. now rewrite Hv.
Qed.

Lemma sign_in_outcomes_witness :
  truthy_str (body_publicKey sign_in) = true
  ∧ ((valid (@verify reject_all (t0 + 1000) sign_in) = false
      ∧ @authWallet reject_all (t0 + 1000) "ab12" sign_in start
        = (Failed 401 (error (@verify reject_all (t0 + 1000) sign_in)), start))
     ∨ (valid (@verify reject_all (t0 + 1000) sign_in) = true
        ∧ ∃ uid w st1,
            @authWallet reject_all (t0 + 1000) "ab12" sign_in start
            = (Authenticated "ab12" uid w, st1))).
Proof.
  split; [reflexivity |].
  exact (@sign_in_outcomes reject_all (t0 + 1000) "ab12" sign_in start eq_refl).
Defined.

(** X28. Signing in twice with verified requests for the same non-empty
    key is safe: both answers carry the same user, and the second sign-in
    leaves the user store as the first left it. The session of the second sign-in is stored under its
    id; the session of the first is still stored under its own id when
    the two ids differ, and has been replaced by the second when
    [generateSessionId] drew the same id twice. No other session
    changes. *)
Theorem sign_in_twice `{Primitives}
    (now1 now2 : Z) (sid1 sid2 : string) (body1 body2 : Body) (st : State) :
  valid (verify now1 body1) = true →
  valid (verify now2 body2) = true →
  body_publicKey body2 = body_publicKey body1 →
  truthy_str (body_publicKey body1) = true →
  ∃ uid w st1 st2,
    authWallet now1 sid1 body1 st = (Authenticated sid1 uid w, st1)
    ∧ authWallet now2 sid2 body2 st1 = (Authenticated sid2 uid w, st2)
    ∧ userStore st2 = userStore st1
    ∧ sessionStore st2 !! sid2
      = Some {| Session.publicKey := body_publicKey body1;
                userId := Some uid;
                createdAt := now2;
                expiresAt := Some (now2 + 86400000);
                Session.metadata := None |}
    ∧ (sid1 ≠ sid2 →
       sessionStore st2 !! sid1
       = Some {| Session.publicKey := body_publicKey body1;
                 userId := Some uid;
                 createdAt := now1;
                 expiresAt := Some (now1 + 86400000);
                 Session.metadata := None |})
    ∧ ∀ other, other ≠ sid1 → other ≠ sid2 →
               sessionStore st2 !! other = sessionStore st !! other.
Proof.
  intros Hv1 Hv2 Hsame Hk.
  destruct (link_then_find (userStore st) now1 (body_publicKey body1) Hk)
    as (u & s1 & Hlink & _ & Hagain).
  rewrite (authWallet_success _ _ _ _ _ _ Hv1 Hlink).
  eexists _, _, _, _. split; [reflexivity |].
  split.
  - apply (authWallet_success now2 sid2 body2 _ u s1 Hv2).
    rewrite Hsame. apply Hagain.
  - simpl. rewrite Hsame. split; [reflexivity |]. split.
    + apply lookup_insert_eq.
    + split.
      * intros Hne. rewrite lookup_insert_ne by congruence.
        apply lookup_insert_eq.
      * intros other H1 H2. now rewrite !lookup_insert_ne by congruence.
Qed.

Lemma sign_in_twice_witness :
  valid (@verify accept_all (t0 + 1000) sign_in) = true
  ∧ valid (@verify accept_all (t0 + 2000) sign_in) = true
  ∧ ∃ uid w st1 st2,
      @authWallet accept_all (t0 + 1000) "ab12" sign_in start
      = (Authenticated "ab12" uid w, st1)
      ∧ @authWallet accept_all (t0 + 2000) "cd34" sign_in st1
        = (Authenticated "cd34" uid w, st2)
      ∧ userStore st2 = userStore st1
      ∧ sessionStore st2 !! "cd34"
        = Some {| Session.publicKey := body_publicKey sign_in;
                  userId := Some uid;
                  createdAt := t0 + 2000;
                  expiresAt := Some (t0 + 2000 + 86400000);
                  Session.metadata := None |}
      ∧ ("ab12" ≠ "cd34" →
         sessionStore st2 !! "ab12"
         = Some {| Session.publicKey := body_publicKey sign_in;
                   userId := Some uid;
                   createdAt := t0 + 1000;
                   expiresAt := Some (t0 + 1000 + 86400000);
                   Session.metadata := None |})
      ∧ ∀ other, other ≠ "ab12" → other ≠ "cd34" →
                 sessionStore st2 !! other = sessionStore start !! other.
Proof.
  assert (H1 : valid (@verify accept_all (t0 + 1000) sign_in) = true)
    by (vm_compute; reflexivity).
  assert (H2 : valid (@verify accept_all (t0 + 2000) sign_in) = true)
    by (vm_compute; reflexivity).
  split; [exact H1 |]. split; [exact H2 |].
  exact (@sign_in_twice accept_all (t0 + 1000) (t0 + 2000) "ab12" "cd34"
           sign_in sign_in start H1 H2 eq_refl eq_refl).
Defined.

(** The same session id drawn twice: one session is left, the second. *)
Example same_session_id_overwrites :
  sessionStore
    (@authWallet accept_all (t0 + 2000) "ab12" sign_in
       (@authWallet accept_all (t0 + 1000) "ab12" sign_in start).2).2
  = {[ "ab12" :=
         {| Session.publicKey := "7xKxabc"; userId := Some "1";
            createdAt := t0 + 2000;
            expiresAt := Some (t0 + 2000 + 86400000);
            Session.metadata := None |} ]}.
Proof. vm_compute; reflexivity. Qed.

(** X29. After the logout route the session route answers 404 for that
    session id at every time; logging out touches no user and no other
    session, and logging out an unknown id changes nothing. *)
Theorem logout_ends_session (sessionId : string) (st : State) :
  ∃ st1,
    logout sessionId st = (LoggedOut, st1)
    ∧ (∀ later, sessionRoute later sessionId st1 = (SessionNotFound, st1))
    ∧ userStore st1 = userStore st
    ∧ (∀ other, other ≠ sessionId →
                sessionStore st1 !! other = sessionStore st !! other)
    ∧ (sessionStore st !! sessionId = None →
       sessionStore st1 = sessionStore st).
Proof.
  eexists. split; [reflexivity |]. simpl. split.
  - intros later. unfold sessionRoute. simpl sessionStore.
    rewrite getSession_absent by apply lookup_delete_eq. reflexivity.
  - split; [reflexivity |].
    split; [intros other Hne; now apply lookup_delete_ne | apply delete_id].
Qed.

End MoreExample.

Section MoreExampleLink.
Import Auth Session Users Run Props Inputs MoreInputs TestPrimitives
  ExampleServer.

(** X30. The link-wallet route, for a verified triple with an unknown key
    and the id of a stored user: if the user has a wallet it answers 500
    with the manager's text "User already has a linked wallet" and
    changes nothing; otherwise it answers with that user, now holding the
    key. It never touches the sessions. *)
Theorem link_wallet_route `{Primitives}
    (now : Z) (body : Body) (st : State) (uid : string) (user : UserRecord) :
  valid (verify now body) = true →
  truthy_str (body_publicKey body) = true →
  body_userId body = Some uid →
  truthy_str uid = true →
  MemoryUserStore.via_index (MemoryUserStore.walletIndex (userStore st))
    (body_publicKey body) (userStore st) = None →
  MemoryUserStore.users (userStore st) !! uid = Some user →
  ∃ reply st1,
    linkWallet now body st = (reply, st1)
    ∧ sessionStore st1 = sessionStore st
    ∧ if truthy (walletPublicKey user)
      then reply = Failed 500 (Some "User already has a linked wallet")
           ∧ st1 = st
      else ∃ u, reply = WalletLinked u
                ∧ id u = id user ∧ email u = email user
                ∧ walletPublicKey u = Some (body_publicKey body)
                ∧ MemoryUserStore.users (userStore st1) !! uid = Some u.
Proof.
  intros Hv Hk Hid Htid Hfind Hu. unfold linkWallet.
  rewrite Hv, (verify_key _ _ Hv), Hid.
  simpl negb. cbv iota. change (default "" (Some ?x)) with x.
  unfold linkOrCreateUser, bind, throw; simpl.
  unfold MemoryUserStore.findByPublicKey, MemoryUserStore.findByUserId.
  rewrite Hfind, Htid, Hu.
  destruct (truthy (walletPublicKey user)) eqn:Hw.
  - eexists _, _. split; [reflexivity |]. split; [reflexivity |].
    split; [reflexivity |]. now destruct st.
  - rewrite (update_links _ _ _ _ _ _ Hu Hw Hk).
    eexists _, _. split; [reflexivity |]. split; [reflexivity |].
    eexists. split; [reflexivity |]. simpl.
    do 3 (split; [reflexivity |]). apply lookup_insert_eq.
Qed.

Lemma link_wallet_route_witness :
  valid (@verify accept_all (t0 + 1000) link_request) = true
  ∧ MemoryUserStore.via_index (MemoryUserStore.walletIndex (userStore one_user))
      (body_publicKey link_request) (userStore one_user) = None
  ∧ MemoryUserStore.users (userStore one_user) !! "1"
    = Some (record (Some "K") (Some 10))
  ∧ ∃ reply st1,
      @linkWallet accept_all (t0 + 1000) link_request one_user = (reply, st1)
      ∧ sessionStore st1 = sessionStore one_user
      ∧ if truthy (walletPublicKey (record (Some "K") (Some 10)))
        then reply = Failed 500 (Some "User already has a linked wallet")
             ∧ st1 = one_user
        else ∃ u, reply = WalletLinked u
                  ∧ id u = id (record (Some "K") (Some 10))
                  ∧ email u = email (record (Some "K") (Some 10))
                  ∧ walletPublicKey u = Some (body_publicKey link_request)
                  ∧ MemoryUserStore.users (userStore st1) !! "1" = Some u.
Proof.
  assert (H1 : valid (@verify accept_all (t0 + 1000) link_request) = true)
    by (vm_compute; reflexivity).
  assert (H2 : MemoryUserStore.via_index
                 (MemoryUserStore.walletIndex (userStore one_user))
                 (body_publicKey link_request) (userStore one_user) = None)
    by reflexivity.
  assert (H3 : MemoryUserStore.users (userStore one_user) !! "1"
               = Some (record (Some "K") (Some 10))) by reflexivity.
  split; [exact H1 |]. split; [exact H2 |]. split; [exact H3 |].
  exact (@link_wallet_route accept_all (t0 + 1000) link_request one_user "1"
           (record (Some "K") (Some 10)) H1 eq_refl eq_refl eq_refl H2 H3).
Defined.

End MoreExampleLink.
